(** * coc.nvim: snippet manager and TypeScript language provider

    A shallow embedding of [SnippetManager] (snippet/manager: the session
    registry and its event handlers) and of [LanguageProvider.handles]
    (typescript-service/languageProvider), with the snippet parser, the
    marker tree and the session the manager drives.

    - Text is a list of characters and a buffer position is a character
      offset into the buffer text.
    - The registry [Map<number, SnippetSession>] is a [gmap] keyed by buffer
      number; a session object is its identity together with its state.
    - The manager is written against the interface of [SnippetSession] it
      uses, a type class; its properties hold for every implementation.
    - [Manager] is the manager once [workspace.ready] has resolved and the
      status item exists; [Unready] is the manager before that.
    - The parser, the marker tree and the session are modelled from the
      specification; the regular-expression engine and the variable
      resolver are parameters.

    The definitions come first, then the vocabulary of the properties, then
    the properties. *)

From Stdlib Require Import Ascii String Sorted.
From stdpp Require Import gmap list strings.

Set Default Proof Using "Type".
Set Warnings "-register-all".

(** ** Text *)

Abbreviation str := (list ascii).

Definition chars (s : string) : str := list_ascii_of_string s.

Definition str_eqb (a b : str) : bool := bool_decide (a = b).

(** ** Node's [path.basename] (posix flavour)

    The loop walks the path from its end: trailing separators are
    skipped, then characters are collected up to the next separator. *)
Module Path.

Definition isSlash (c : ascii) : bool := bool_decide (c = "/"%char).

Fixpoint skipSlashes (r : str) : str :=
  match r with
  | c :: r' => if isSlash c then skipSlashes r' else r
  | [] => []
  end.

Fixpoint segment (r : str) : str :=
  match r with
  | c :: r' => if isSlash c then [] else c :: segment r'
  | [] => []
  end.

Definition basename (path : str) : str :=
  rev (segment (skipSlashes (rev path))).

End Path.

(** ** The fragment of JavaScript regular expressions used by [handles]

    A backtracking matcher in continuation style; [test] is
    [RegExp.prototype.test] for a pattern without flags: the pattern is
    tried at every start index, and [$] only matches at the end of the
    input. *)
Module RegExp.

Inductive re : Type :=
| Lit (c : ascii)
| Opt (r : re)
| Cat (r1 r2 : re)
| Eos.

Fixpoint matches (r : re) (s : str) (k : str -> bool) : bool :=
  match r with
  | Lit c =>
      match s with
      | x :: s' => if bool_decide (x = c) then k s' else false
      | [] => false
      end
  | Opt r1 => matches r1 s k || k s
  | Cat r1 r2 => matches r1 s (fun s' => matches r2 s' k)
  | Eos => match s with [] => k [] | _ :: _ => false end
  end.

Fixpoint test (r : re) (s : str) : bool :=
  matches r s (fun _ => true) ||
  match s with
  | [] => false
  | _ :: s' => test r s'
  end.

(** [/ts(x)?$/] and [/js(x)?$/] *)
Definition ts_re : re := Cat (Lit "t") (Cat (Lit "s") (Cat (Opt (Lit "x")) Eos)).
Definition js_re : re := Cat (Lit "j") (Cat (Lit "s") (Cat (Opt (Lit "x")) Eos)).

End RegExp.

(** ** [LanguageProvider.handles] (typescript-service/languageProvider.ts) *)
Module LanguageProvider.

Record Uri : Type := { fsPath : str }.

(** [LanguageDescription]; [configFile] is an optional property. *)
Record LanguageDescription : Type := {
  id : str;
  diagnosticSource : str;
  modeIds : list str;
  configFile : option str
}.

Section Handles.

(** [this.bufferSyncSupport.handles], a collaborator of the provider. *)
Variable bufferSyncSupport_handles : Uri -> bool.

Variable description : LanguageDescription.

Definition handles (resource : Uri) : bool :=
  let fsPath := fsPath resource in
  if str_eqb (id description) (chars "typescript") && RegExp.test RegExp.ts_re fsPath
  then true
  else if str_eqb (id description) (chars "javascript") && RegExp.test RegExp.js_re fsPath
  then true
  else if bufferSyncSupport_handles resource
  then true
  else
    let base := Path.basename fsPath in
    negb (str_eqb base []) && bool_decide (Some base = configFile description).

End Handles.

End LanguageProvider.

(** ** Snippet markers and the template parser (snippet/parser)

    The parser and the marker tree are imported by the manager
    ([./parser]) but are not among the source files; they are modelled from
    sections 3, 4.1 and 4.2 of the specification. *)
Module Snippets.

Inductive CaseShape : Type := Upcase | Downcase | Capitalize | PassThrough.

Inductive FormatFragment : Type :=
| FLiteral (text : str)
| FBackRef (group : nat) (shape : CaseShape).

(** Modelled from the spec: the Transform of a Placeholder or Variable
    (section 3; the marker classes of snippet/parser are not among the
    files): a regular expression, format fragments and the flags. *)
Record Transform : Type := {
  regex : str;
  format : list FormatFragment;
  flagGlobal : bool;
  flagIgnoreCase : bool
}.

(** Modelled from the spec: the Marker variants of section 3 (snippet/parser
    is not among the files): Text, Placeholder and Variable (named
    [VariableMarker], the plain name being a reserved word). *)
Inductive Marker : Type :=
| Text (value : str)
| Placeholder (index : nat) (children : list Marker)
    (choices : option (list str)) (transform : option Transform)
| VariableMarker (name : str) (children : list Marker)
    (transform : option Transform).

Abbreviation Snippet := (list Marker).

Definition isText (m : Marker) : bool :=
  match m with Text _ => true | _ => false end.

Definition childrenOf (m : Marker) : list Marker :=
  match m with
  | Text _ => []
  | Placeholder _ cs _ _ => cs
  | VariableMarker _ cs _ => cs
  end.

Definition transformOf (m : Marker) : option Transform :=
  match m with
  | Text _ => None
  | Placeholder _ _ _ t => t
  | VariableMarker _ _ t => t
  end.

(** *** Character classes *)

Definition code (c : ascii) : nat := nat_of_ascii c.

Definition isDigit (c : ascii) : bool :=
  (48 <=? code c)%nat && (code c <=? 57)%nat.

Definition isUpper (c : ascii) : bool :=
  (65 <=? code c)%nat && (code c <=? 90)%nat.

Definition isLower (c : ascii) : bool :=
  (97 <=? code c)%nat && (code c <=? 122)%nat.

Definition isNameStart (c : ascii) : bool :=
  isUpper c || isLower c || bool_decide (c = "_"%char).

Definition isNameChar (c : ascii) : bool := isNameStart c || isDigit c.

Definition isChar (x c : ascii) : bool := bool_decide (c = x).

Definition upcaseChar (c : ascii) : ascii :=
  if isLower c then ascii_of_nat (code c - 32) else c.

Definition downcaseChar (c : ascii) : ascii :=
  if isUpper c then ascii_of_nat (code c + 32) else c.

Definition shape (r : CaseShape) (s : str) : str :=
  match r with
  | Upcase => map upcaseChar s
  | Downcase => map downcaseChar s
  | Capitalize =>
      match s with
      | c :: s' => upcaseChar c :: s'
      | [] => []
      end
  | PassThrough => s
  end.

(** *** Scanning helpers *)

Fixpoint span (p : ascii -> bool) (s : str) : str * str :=
  match s with
  | c :: s' =>
      if p c then let '(a, b) := span p s' in (c :: a, b) else ([], s)
  | [] => ([], [])
  end.

Definition digitsValue (ds : str) : nat :=
  fold_left (fun acc c => (10 * acc + (code c - 48))%nat) ds 0%nat.

Inductive Key : Type :=
| KIndex (index : nat)
| KName (name : str).

(** [<digits>] or [<name>] at the head of the input. *)
Definition readKey (s : str) : option (Key * str) :=
  match s with
  | c :: s' =>
      if isDigit c then
        let '(ds, rest) := span isDigit s in Some (KIndex (digitsValue ds), rest)
      else if isNameStart c then
        let '(n, rest) := span isNameChar s' in Some (KName (c :: n), rest)
      else None
  | [] => None
  end.

Definition mkMarker (k : Key) (children : list Marker)
    (choices : option (list str)) (t : option Transform) : Marker :=
  match k with
  | KIndex i => Placeholder i children choices t
  | KName n => VariableMarker n children t
  end.

Inductive PResult (A : Type) : Type :=
| POk (a : A) (rest : str)
| PNoMatch
| PUnterminated.

Arguments POk {A} a rest.
Arguments PNoMatch {A}.
Arguments PUnterminated {A}.

(** The choice list after [${<digits>|]: choices are separated by [,] and
    closed by [|}]; [\,], [\|] and [\\] stand for the literal character. *)
Fixpoint parseChoices (cur : str) (acc : list str) (s : str)
  : PResult (list str) :=
  match s with
  | [] => PUnterminated
  | c :: s1 =>
      if isChar "\" c then
        match s1 with
        | e :: s2 =>
            if isChar "," e || isChar "|" e || isChar "\" e
            then parseChoices (cur ++ [e]) acc s2
            else parseChoices (cur ++ [c; e]) acc s2
        | [] => PUnterminated
        end
      else if isChar "," c then parseChoices [] (acc ++ [cur]) s1
      else if isChar "|" c then
        match s1 with
        | [] => PUnterminated
        | d :: s2 => if isChar "}" d then POk (acc ++ [cur]) s2 else PNoMatch
        end
      else parseChoices (cur ++ [c]) acc s1
  end.

(** The raw characters up to the next unescaped [/]; a backslash keeps the
    character after it from ending the clause. *)
Fixpoint readClause (cur : str) (s : str) : PResult str :=
  match s with
  | [] => PUnterminated
  | c :: s1 =>
      if isChar "\" c then
        match s1 with
        | e :: s2 => readClause (cur ++ [c; e]) s2
        | [] => PUnterminated
        end
      else if isChar "/" c then POk cur s1
      else readClause (cur ++ [c]) s1
  end.

(** [\/] in a regular expression clause is the literal [/]. *)
Fixpoint unescapeSlash (s : str) : str :=
  match s with
  | c :: s1 =>
      match s1 with
      | e :: s2 =>
          if isChar "\" c && isChar "/" e then e :: unescapeSlash s2
          else c :: unescapeSlash s1
      | [] => [c]
      end
  | [] => []
  end.

Definition pushLiteral (c : ascii) (fs : list FormatFragment)
  : list FormatFragment :=
  match fs with
  | FLiteral t :: fs' => FLiteral (c :: t) :: fs'
  | _ => FLiteral [c] :: fs
  end.

Definition shapeOfLetter (c : ascii) : option CaseShape :=
  if isChar "U" c then Some Upcase
  else if isChar "L" c then Some Downcase
  else if isChar "u" c then Some Capitalize
  else None.

(** A back-reference [$<digits>] or [${<digits>}] at the head of the input. *)
Definition readBackRef (s : str) : option (nat * str) :=
  match s with
  | d :: s1 =>
      if isChar "$" d then
        match s1 with
        | b :: s2 =>
            if isDigit b then
              let '(ds, rest) := span isDigit s1 in Some (digitsValue ds, rest)
            else if isChar "{" b then
              let '(ds, rest) := span isDigit s2 in
              match ds, rest with
              | _ :: _, e :: rest' =>
                  if isChar "}" e then Some (digitsValue ds, rest') else None
              | _, _ => None
              end
            else None
        | [] => None
        end
      else None
  | [] => None
  end.

(** Format fragments: literal text, [$n] and [${n}] (pass-through), and a
    back-reference behind [\U], [\L] or [\u] (upcase, downcase,
    capitalize); [\/], [\\] and [\$] are the literal characters. *)
Fixpoint parseFormat (fuel : nat) (s : str) : list FormatFragment :=
  match fuel with
  | O => []
  | S fuel' =>
      match s with
      | [] => []
      | c :: s1 =>
          if isChar "\" c then
            match s1 with
            | e :: s2 =>
                match shapeOfLetter e, readBackRef s2 with
                | Some r, Some (n, rest) => FBackRef n r :: parseFormat fuel' rest
                | _, _ =>
                    if isChar "/" e || isChar "\" e || isChar "$" e
                    then pushLiteral e (parseFormat fuel' s2)
                    else pushLiteral c (parseFormat fuel' s1)
                end
            | [] => pushLiteral c []
            end
          else
            match readBackRef s with
            | Some (n, rest) => FBackRef n PassThrough :: parseFormat fuel' rest
            | None => pushLiteral c (parseFormat fuel' s1)
            end
      end
  end.

Definition hasFlag (f : ascii) (flags : str) : bool :=
  existsb (isChar f) flags.

(** The transform clause after [${<key>/]: [<regex>/<format>/<flags>}]. *)
Definition parseTransform (s : str) : PResult Transform :=
  match readClause [] s with
  | POk re s1 =>
      match readClause [] s1 with
      | POk fmt s2 =>
          let '(flags, s3) := span (fun c => negb (isChar "}" c)) s2 in
          match s3 with
          | _ :: rest =>
              POk {| regex := unescapeSlash re;
                     format := parseFormat (S (length fmt)) fmt;
                     flagGlobal := hasFlag "g" flags;
                     flagIgnoreCase := hasFlag "i" flags |} rest
          | [] => PUnterminated
          end
      | PNoMatch => PNoMatch
      | PUnterminated => PUnterminated
      end
  | PNoMatch => PNoMatch
  | PUnterminated => PUnterminated
  end.

(** Adjacent literal characters are kept in one Text marker. *)
Definition consMarker (m : Marker) (ms : list Marker) : list Marker :=
  match m, ms with
  | Text a, Text b :: ms' => Text (a ++ b) :: ms'
  | _, _ => m :: ms
  end.

Definition isTextEscape (c : ascii) : bool :=
  isChar "$" c || isChar "}" c || isChar "\" c.

(** A construct after [$]: the braced forms first, then the bare
    [$<digits>] and [$<name>].  [children] reads the default content of a
    [${<key>:] up to its closing brace. *)
Definition parseConstruct (children : str -> option (PResult (list Marker)))
    (s1 : str) : option (PResult Marker) :=
  match s1 with
  | b :: s2 =>
      if isChar "{" b then
        match readKey s2 with
        | None =>
            Some (match s2 with [] => PUnterminated | _ :: _ => PNoMatch end)
        | Some (k, s3) =>
            match s3 with
            | [] => Some PUnterminated
            | d :: s4 =>
                if isChar "}" d then Some (POk (mkMarker k [] None None) s4)
                else if isChar ":" d then
                  match children s4 with
                  | None => None
                  | Some (POk cs r) => Some (POk (mkMarker k cs None None) r)
                  | Some PNoMatch => Some PNoMatch
                  | Some PUnterminated => Some PUnterminated
                  end
                else if isChar "|" d then
                  match k with
                  | KIndex i =>
                      match parseChoices [] [] s4 with
                      | POk cs r => Some (POk (Placeholder i [] (Some cs) None) r)
                      | PNoMatch => Some PNoMatch
                      | PUnterminated => Some PUnterminated
                      end
                  | KName _ => Some PNoMatch
                  end
                else if isChar "/" d then
                  match parseTransform s4 with
                  | POk t r => Some (POk (mkMarker k [] None (Some t)) r)
                  | PNoMatch => Some PNoMatch
                  | PUnterminated => Some PUnterminated
                  end
                else Some PNoMatch
            end
        end
      else
        match readKey s1 with
        | Some (k, rest) => Some (POk (mkMarker k [] None None) rest)
        | None => Some PNoMatch
        end
  | [] => Some PNoMatch
  end.

(** The marker just read, in front of what the rest of the sequence gives. *)
Definition continueWith (rest : option (PResult (list Marker))) (m : Marker)
  : option (PResult (list Marker)) :=
  match rest with
  | Some (POk ms r) => Some (POk (consMarker m ms) r)
  | other => other
  end.

(** Modelled from the spec: the recursive descent of the parser (section
    4.1; the parser's source is not among the files).  [nested] tells
    whether the sequence being read is the default content of an enclosing
    [${<key>:] (closed by a brace) or the top-level sequence (closed by the
    end of the input).  An unterminated brace gives up the whole nesting:
    at the top level everything from its [$] on becomes one Text marker of
    raw characters.  [None] means that the recursion budget [fuel] was too
    small. *)
Fixpoint parseMarkers (fuel : nat) (nested : bool) (s : str) {struct fuel}
  : option (PResult (list Marker)) :=
  match fuel with
  | O => None
  | S fuel' =>
      match s with
      | [] => Some (if nested then PUnterminated else POk [] [])
      | c :: s1 =>
          if isChar "}" c && nested then Some (POk [] s1)
          else if isChar "\" c then
            match s1 with
            | e :: s2 =>
                if isTextEscape e
                then continueWith (parseMarkers fuel' nested s2) (Text [e])
                else continueWith (parseMarkers fuel' nested s1) (Text [c])
            | [] => continueWith (parseMarkers fuel' nested s1) (Text [c])
            end
          else if isChar "$" c then
            match parseConstruct (parseMarkers fuel' true) s1 with
            | None => None
            | Some (POk m rest) => continueWith (parseMarkers fuel' nested rest) m
            | Some PNoMatch => continueWith (parseMarkers fuel' nested s1) (Text [c])
            | Some PUnterminated =>
                Some (if nested then PUnterminated else POk [Text s] [])
            end
          else continueWith (parseMarkers fuel' nested s1) (Text [c])
      end
  end.

(** Does tabstop [i] occur anywhere in the tree? *)
Fixpoint hasTabstop (i : nat) (m : Marker) : bool :=
  match m with
  | Text _ => false
  | Placeholder j cs _ _ => bool_decide (j = i) || existsb (hasTabstop i) cs
  | VariableMarker _ cs _ => existsb (hasTabstop i) cs
  end.

Definition ensureFinalTabstop (ms : Snippet) : Snippet :=
  if existsb (hasTabstop 0) ms then ms else ms ++ [Placeholder 0 [] None None].

Definition parseOpt (template : str) (insertFinalTabstop : bool)
  : option Snippet :=
  match parseMarkers (S (length template)) false template with
  | Some (POk ms _) =>
      Some (if insertFinalTabstop then ensureFinalTabstop ms else ms)
  | _ => None
  end.

(** Modelled from the spec: [parse(template, insertFinalTabstop)] of the
    snippet parser (section 4.1). *)
Definition parse (template : str) (insertFinalTabstop : bool) : Snippet :=
  match parseOpt template insertFinalTabstop with
  | Some sn => sn
  | None => [Text template]
  end.

(** *** Marker tree operations *)

(** The regular-expression engine behind a Transform:
    [regexReplace pattern global ignoreCase replacer input] is
    [input.replace(new RegExp(pattern, flags), (...groups) => replacer groups)];
    [groups] starts with the whole match. *)
Class RegExpEngine : Type :=
  regexReplace : str -> bool -> bool -> (list str -> str) -> str -> str.

(** Modelled from the spec: the Variable Resolver collaborator,
    [resolve(name) -> optional string] (section 4.3). *)
Class VariableResolver : Type :=
  resolve : str -> option str.

Definition formatFragment (groups : list str) (f : FormatFragment) : str :=
  match f with
  | FLiteral t => t
  | FBackRef n r => shape r (default [] (groups !! n))
  end.

Definition resolveTransform `{RegExpEngine} (t : Transform) (value : str) : str :=
  regexReplace (regex t) (flagGlobal t) (flagIgnoreCase t)
    (fun groups => flat_map (formatFragment groups) (format t)) value.

Definition applyTransform `{RegExpEngine} (t : option Transform) (value : str) : str :=
  match t with
  | Some t' => resolveTransform t' value
  | None => value
  end.

Definition firstChoice (choices : option (list str)) : str :=
  match choices with
  | Some (c :: _) => c
  | _ => []
  end.

(** Modelled from the spec: [render()] of the marker tree (section 4.2;
    snippet/parser is not among the files).  Depth-first concatenation; a
    Placeholder or Variable renders its children, or its first choice when it has a choice list and
    no children, and passes that value through its Transform if it has
    one. *)
Fixpoint render `{RegExpEngine} (m : Marker) : str :=
  match m with
  | Text v => v
  | Placeholder _ cs choices t =>
      applyTransform t
        match cs with
        | [] => firstChoice choices
        | _ :: _ => flat_map render cs
        end
  | VariableMarker _ cs t => applyTransform t (flat_map render cs)
  end.

Definition renderAll `{RegExpEngine} (ms : Snippet) : str := flat_map render ms.

(** Modelled from the spec: the leaves of the tree (the "leaf text" of
    sections 3 and 4.2): its Text markers, in tree order. *)
Fixpoint leaves (m : Marker) : list Marker :=
  match m with
  | Text _ => [m]
  | Placeholder _ cs _ _ => flat_map leaves cs
  | VariableMarker _ cs _ => flat_map leaves cs
  end.

(** The rendered plain text of the leaves, concatenated. *)
Definition leafText `{RegExpEngine} (ms : Snippet) : str :=
  flat_map render (flat_map leaves ms).

(** Modelled from the spec: [computeOffsets(startOffset)] (section 4.2;
    snippet/parser is not among the files): every marker of the tree, in
    document order, with its half-open span [(start, end)] in the rendered text. *)
Fixpoint spans `{RegExpEngine} (start : nat) (m : Marker)
  : list (Marker * (nat * nat)) :=
  let inside :=
    fix go (off : nat) (ms : list Marker) : list (Marker * (nat * nat)) :=
      match ms with
      | [] => []
      | c :: cs => spans off c ++ go (off + length (render c))%nat cs
      end in
  (m, (start, (start + length (render m))%nat)) ::
  match m with
  | Text _ => []
  | Placeholder _ cs _ _ => inside start cs
  | VariableMarker _ cs _ => inside start cs
  end.

Fixpoint spansAll `{RegExpEngine} (off : nat) (ms : Snippet)
  : list (Marker * (nat * nat)) :=
  match ms with
  | [] => []
  | c :: cs => spans off c ++ spansAll (off + length (render c))%nat cs
  end.

Definition computeOffsets `{RegExpEngine} (startOffset : nat) (ms : Snippet) : nat :=
  (startOffset + length (renderAll ms))%nat.

Definition isPlaceholder (i : nat) (m : Marker) : bool :=
  match m with
  | Placeholder j _ _ _ => bool_decide (j = i)
  | _ => false
  end.

(** Modelled from the spec: the Placeholder Group Index (section 3), derived
    from the tree: the mirrors of tabstop [i] in document order; the
    canonical mirror is the first one. *)
Definition group `{RegExpEngine} (i : nat) (origin : nat) (ms : Snippet)
  : list (Marker * (nat * nat)) :=
  filter (fun e => isPlaceholder i e.1 = true) (spansAll origin ms).

Definition canonical `{RegExpEngine} (i : nat) (origin : nat) (ms : Snippet)
  : option (Marker * (nat * nat)) :=
  head (group i origin ms).

(** Tabstop indices in document order. *)
Fixpoint tabstops (m : Marker) : list nat :=
  match m with
  | Text _ => []
  | Placeholder j cs _ _ => j :: flat_map tabstops cs
  | VariableMarker _ cs _ => flat_map tabstops cs
  end.

Fixpoint insertSorted (x : nat) (l : list nat) : list nat :=
  match l with
  | [] => [x]
  | y :: l' =>
      if (x <? y)%nat then x :: l
      else if (x =? y)%nat then l
      else y :: insertSorted x l'
  end.

(** Modelled from the spec: the navigation order of a session (section 3):
    the distinct non-zero indices in ascending order, then 0 as the
    terminal stop. *)
Definition navigationOrder (ms : Snippet) : list nat :=
  foldr insertSorted [] (filter (fun j => j <> 0%nat) (flat_map tabstops ms)) ++ [0%nat].

(** Modelled from the spec: [resolveVariables(resolver)] (section 4.2;
    snippet/parser is not among the files).  Every Variable marker with
    empty children asks the resolver for its name once; a value becomes the marker's
    content, no value leaves the declared (empty) default.  The second
    component lists the names asked for, in order. *)
Fixpoint resolveVariables `{VariableResolver} (m : Marker) : Marker * list str :=
  let all :=
    fix go (ms : list Marker) : list Marker * list str :=
      match ms with
      | [] => ([], [])
      | c :: cs =>
          let '(c', l1) := resolveVariables c in
          let '(cs', l2) := go cs in
          (c' :: cs', l1 ++ l2)
      end in
  match m with
  | Text _ => (m, [])
  | Placeholder i cs ch t =>
      let '(cs', l) := all cs in (Placeholder i cs' ch t, l)
  | VariableMarker n cs t =>
      match cs with
      | [] =>
          match resolve n with
          | Some v => (VariableMarker n [Text v] t, [n])
          | None => (m, [n])
          end
      | _ :: _ => let '(cs', l) := all cs in (VariableMarker n cs' t, l)
      end
  end.

Fixpoint resolveAll `{VariableResolver} (ms : Snippet) : Snippet * list str :=
  match ms with
  | [] => ([], [])
  | c :: cs =>
      let '(c', l1) := resolveVariables c in
      let '(cs', l2) := resolveAll cs in
      (c' :: cs', l1 ++ l2)
  end.

End Snippets.

(** ** The editor as the snippet code sees it

    The workspace and the buffer are collaborators of the snippet code; the
    session talks to them through the interface of section 6 of the
    specification ([insertText], [replaceRange], [setSelection],
    [setCursor]). *)
Module Editor.

(** [TextDocumentContentChangeEvent]: the replaced range and its new text. *)
Record Change : Type := {
  rangeStart : nat;
  rangeEnd : nat;
  newText : str
}.

(** Modelled from the spec: what a session asks of its collaborators, the
    Text Buffer and the Variable Resolver of section 6 (the workspace code
    is not among the files). *)
Inductive Request : Type :=
| InsertText (position : nat) (text : str)
| ReplaceRange (start stop : nat) (text : str)
| SetSelection (start stop : nat)
| SetCursor (position : nat)
| Resolve (name : str).


Record World : Type := {
  w_bufnr : Z;                    (* workspace.bufnr, bufnr('%') *)
  w_cursor : nat;
  w_selection : nat * nat;
  w_buffers : gmap Z str;         (* buffer text by buffer number *)
  w_documents : str -> option Z;  (* workspace.getDocument(uri).bufnr *)
  w_snippetKeys : bool            (* cleared by coc#snippet#disable *)
}.

Definition splice (t : str) (start stop : nat) (new : str) : str :=
  take start t ++ new ++ drop stop t.

Definition bufferText (w : World) (b : Z) : str := default [] (w_buffers w !! b).

Definition setText (w : World) (b : Z) (t : str) : World :=
  {| w_bufnr := w_bufnr w; w_cursor := w_cursor w; w_selection := w_selection w;
     w_buffers := <[b := t]> (w_buffers w); w_documents := w_documents w;
     w_snippetKeys := w_snippetKeys w |}.

Definition setSelection (w : World) (a b : nat) : World :=
  {| w_bufnr := w_bufnr w; w_cursor := b; w_selection := (a, b);
     w_buffers := w_buffers w; w_documents := w_documents w;
     w_snippetKeys := w_snippetKeys w |}.

Definition disableSnippetKeys (w : World) : World :=
  {| w_bufnr := w_bufnr w; w_cursor := w_cursor w; w_selection := w_selection w;
     w_buffers := w_buffers w; w_documents := w_documents w;
     w_snippetKeys := false |}.

Definition applyRequest (b : Z) (w : World) (r : Request) : World :=
  match r with
  | InsertText p t => setText w b (splice (bufferText w b) p p t)
  | ReplaceRange p q t => setText w b (splice (bufferText w b) p q t)
  | SetSelection p q => setSelection w p q
  | SetCursor p => setSelection w p p
  | Resolve _ => w
  end.

Definition applyRequests (b : Z) (w : World) (rs : list Request) : World :=
  fold_left (applyRequest b) rs w.

(** What one call of a session method did besides changing the session:
    its requests, in order, and whether its [onCancel] event fired. *)
Record Effects : Type := {
  requests : list Request;
  cancelled : bool
}.

Definition quiet : Effects := {| requests := []; cancelled := false |}.

End Editor.

(** ** The interface of [SnippetSession] that the manager uses *)
Class SnippetSession (S : Type) : Type := {
  (* new SnippetSession(nvim, bufnr) *)
  create : Z -> S;
  isActive : S -> bool;
  start : S -> str -> bool -> option nat -> Editor.World -> S * Editor.Effects * bool;
  synchronizeUpdatedPlaceholders :
    S -> option Editor.Change -> Editor.World -> S * Editor.Effects;
  checkPosition : S -> Editor.World -> S * Editor.Effects;
  selectCurrentPlaceholder : S -> Editor.World -> S * Editor.Effects;
  nextPlaceholder : S -> Editor.World -> S * Editor.Effects;
  previousPlaceholder : S -> Editor.World -> S * Editor.Effects;
  deactivate : S -> S * Editor.Effects
}.

(** ** The snippet session (snippet/session)

    The manager imports [SnippetSession] from [./session], which is not
    among the source files; the session is modelled from section 4.4 of the
    specification, [Inactive -> Active(tabstop) -> ... -> Active(0) ->
    Inactive].  The session announces every transition to [Inactive] made
    by [deactivate] through its [onCancel] event, the one the manager
    subscribes to. *)
Module Session.

Import Snippets Editor.

Section WithCollaborators.

Context `{RegExpEngine} `{VariableResolver}.

(** Modelled from the spec: the session state of section 3
    (snippet/session is not among the files). *)
Record Session : Type := {
  bufnr : Z;
  snippet : Snippet;        (* the Marker Tree *)
  origin : nat;             (* offset at which the rendered text starts *)
  current : option nat;     (* [Some i] is Active(i), [None] is Inactive *)
  order : list nat          (* navigation order, 0 last *)
}.

Definition create (b : Z) : Session :=
  {| bufnr := b; snippet := []; origin := 0; current := None; order := [] |}.

Definition isActive (s : Session) : bool :=
  match current s with Some _ => true | None => false end.

Definition setCurrent (s : Session) (c : option nat) : Session :=
  {| bufnr := bufnr s; snippet := snippet s; origin := origin s;
     current := c; order := order s |}.


Definition canonicalOf (s : Session) (i : nat) : option (Marker * (nat * nat)) :=
  canonical i (origin s) (snippet s).

(** The request that puts the selection over tabstop [i]: the span is
    selected, or the cursor collapsed to its end. *)
Definition selectRequests (s : Session) (i : nat) (select : bool) : list Request :=
  match canonicalOf s i with
  | Some (_, (a, b)) => if select then [SetSelection a b] else [SetCursor b]
  | None => []
  end.

(** Modelled from the spec: [deactivate()] / [cancel()] of the session
    (section 4.4): the session is Inactive at once, nothing is asked of the
    buffer, and [onCancel] fires. *)
Definition deactivate (s : Session) : Session * Effects :=
  (setCurrent s None, {| requests := []; cancelled := true |}).

(** Modelled from the spec: [start(template, selectOnInsert, position)] of
    the session (section 4.4).  A template without any
    tabstop is inserted as text and the session is not active; otherwise
    tabstop 0 is appended when the template does not declare it and the
    session becomes active at the first stop of the navigation order. *)
Definition start (s : Session) (template : str) (select : bool)
    (position : option nat) (w : World) : Session * Effects * bool :=
  let at_ := default (w_cursor w) position in
  let '(declared, asked) := resolveAll (parse template false) in
  match flat_map tabstops declared with
  | [] =>
      ({| bufnr := bufnr s; snippet := declared; origin := at_;
          current := None; order := [] |},
       {| requests := map Resolve asked ++ [InsertText at_ (renderAll declared)];
          cancelled := false |},
       false)
  | _ :: _ =>
      let tree := ensureFinalTabstop declared in
      let nav := navigationOrder tree in
      let first := default 0 (head nav) in
      let s' := {| bufnr := bufnr s; snippet := tree; origin := at_;
                   current := Some first; order := nav |} in
      (s',
       {| requests := map Resolve asked ++ [InsertText at_ (renderAll tree)]
                      ++ selectRequests s' first select;
          cancelled := false |},
       true)
  end.

(** Modelled from the spec: the tree update of a synchronized edit (section
    4.4, [synchronizeUpdatedPlaceholders]).  [seen] is [None] until the
    canonical mirror of tabstop [i] has been met in document order and the
    propagated value, the edited plain text, afterwards.  The canonical
    mirror takes [content]; every later mirror takes the propagated value
    and asks for its span (old text, at the offset it has once everything
    before it is written) to be replaced by what it renders now, the value
    passed through its own Transform. *)
Fixpoint syncMarker (i : nat) (content : str) (off : nat) (seen : option str)
    (m : Marker) {struct m} : option str * Marker * list Request :=
  let inside :=
    fix go (off : nat) (seen : option str) (ms : list Marker)
      : option str * list Marker * list Request :=
      match ms with
      | [] => (seen, [], [])
      | c :: cs =>
          let '(seen1, c', r1) := syncMarker i content off seen c in
          let '(seen2, cs', r2) := go (off + length (render c')) seen1 cs in
          (seen2, c' :: cs', r1 ++ r2)
      end in
  match m with
  | Text _ => (seen, m, [])
  | Placeholder j cs ch t =>
      if bool_decide (j = i) then
        match seen with
        | None =>
            let m' := Placeholder j [Text content] ch t in
            (Some content, m', [])
        | Some v =>
            let m' := Placeholder j [Text v] ch t in
            (seen, m', [ReplaceRange off (off + length (render m)) (render m')])
        end
      else
        let '(seen', cs', rs) := inside off seen cs in
        (seen', Placeholder j cs' ch t, rs)
  | VariableMarker n cs t =>
      let '(seen', cs', rs) := inside off seen cs in
      (seen', VariableMarker n cs' t, rs)
  end.

Fixpoint syncAll (i : nat) (content : str) (off : nat) (seen : option str)
    (ms : Snippet) : option str * Snippet * list Request :=
  match ms with
  | [] => (seen, [], [])
  | c :: cs =>
      let '(seen1, c', r1) := syncMarker i content off seen c in
      let '(seen2, cs', r2) := syncAll i content (off + length (render c')) seen1 cs in
      (seen2, c' :: cs', r1 ++ r2)
  end.

(** Modelled from the spec: [synchronizeUpdatedPlaceholders(change)] of
    the session (section 4.4).  An edit wholly within the
    span of the active tabstop's canonical mirror replaces the characters
    it covers in the mirror's content (all of the content when the range
    is the whole span) and is propagated; any other edit ends the
    session. *)
Definition synchronizeUpdatedPlaceholders (s : Session) (change : option Change)
  : Session * Effects :=
  match change, current s with
  | Some ch, Some i =>
      match canonicalOf s i with
      | Some (m, (a, b)) =>
          if (a <=? rangeStart ch) && (rangeStart ch <=? rangeEnd ch)
             && (rangeEnd ch <=? b)
          then
            let content :=
              splice (render m) (rangeStart ch - a) (rangeEnd ch - a) (newText ch) in
            let '(_, tree, reqs) := syncAll i content (origin s) None (snippet s) in
            ({| bufnr := bufnr s; snippet := tree; origin := origin s;
                current := current s; order := order s |},
             {| requests := reqs; cancelled := false |})
          else deactivate s
      | None => deactivate s
      end
  | _, _ => (s, quiet)
  end.

Fixpoint successor (i : nat) (l : list nat) : option nat :=
  match l with
  | x :: l' =>
      if bool_decide (x = i) then head l' else successor i l'
  | [] => None
  end.

Fixpoint predecessor (i : nat) (l : list nat) : option nat :=
  match l with
  | x :: l' =>
      match l' with
      | y :: _ => if bool_decide (y = i) then Some x else predecessor i l'
      | [] => None
      end
  | [] => None
  end.

(** Modelled from the spec: [nextPlaceholder()] of the session (section
    4.4): the stop after the active one becomes active; reaching 0 selects
    it and ends the session. *)
Definition nextPlaceholder (s : Session) : Session * Effects :=
  match current s with
  | None => (s, quiet)
  | Some i =>
      match successor i (order s) with
      | Some 0 =>
          (setCurrent s None,
           {| requests := selectRequests s 0 true; cancelled := true |})
      | Some j =>
          (setCurrent s (Some j),
           {| requests := selectRequests s j true; cancelled := false |})
      | None => deactivate s
      end
  end.

(** Modelled from the spec: [previousPlaceholder()] of the session (section
    4.4): the stop before the active one becomes active; at the first stop
    nothing happens. *)
Definition previousPlaceholder (s : Session) : Session * Effects :=
  match current s with
  | None => (s, quiet)
  | Some i =>
      match predecessor i (order s) with
      | Some j =>
          (setCurrent s (Some j),
           {| requests := selectRequests s j true; cancelled := false |})
      | None => (s, quiet)
      end
  end.

(** Modelled from the spec: [selectCurrentPlaceholder()] of the session
    (section 4.4). *)
Definition selectCurrentPlaceholder (s : Session) : Session * Effects :=
  match current s with
  | Some i => (s, {| requests := selectRequests s i true; cancelled := false |})
  | None => (s, quiet)
  end.

(** Modelled from the spec: [checkPosition()] of the session (section
    4.4): a cursor outside the active marker's span ends the session. *)
Definition checkPosition (s : Session) (w : World) : Session * Effects :=
  match current s with
  | Some i =>
      match canonicalOf s i with
      | Some (_, (a, b)) =>
          if (a <=? w_cursor w) && (w_cursor w <=? b) then (s, quiet)
          else deactivate s
      | None => deactivate s
      end
  | None => (s, quiet)
  end.

End WithCollaborators.

End Session.

#[export] Instance specSession `{Snippets.RegExpEngine} `{Snippets.VariableResolver}
  : SnippetSession Session.Session := {|
  create := Session.create;
  isActive := Session.isActive;
  start := Session.start;
  synchronizeUpdatedPlaceholders := fun s c _ => Session.synchronizeUpdatedPlaceholders s c;
  checkPosition := Session.checkPosition;
  selectCurrentPlaceholder := fun s _ => Session.selectCurrentPlaceholder s;
  nextPlaceholder := fun s _ => Session.nextPlaceholder s;
  previousPlaceholder := fun s _ => Session.previousPlaceholder s;
  deactivate := Session.deactivate
|}.

(** ** [SnippetManager] (snippet/manager)

    Every handler runs to completion before the next event is taken.  The
    state is the one after [workspace.ready] has resolved, so the status
    item exists.  A session object is only ever referenced from the
    registry: the registry entry carries the object's identity and its
    current state, and a method call on the object rewrites the entry. *)
Module Manager.

Import Editor.

(** A [SnippetSession] object: its identity, its read-only [bufnr] and its
    mutable state. *)
Record Obj (S : Type) : Type := {
  oid : nat;
  objBufnr : Z;
  state : S
}.

Arguments oid {S} _.
Arguments objBufnr {S} _.
Arguments state {S} _.

Record StatusBarItem : Type := {
  text : str;
  visible : bool
}.

Record Manager (S : Type) : Type := {
  sessionMap : gmap Z (Obj S);
  created : nat;                  (* session objects constructed so far *)
  statusItem : StatusBarItem
}.

Arguments sessionMap {S} _.
Arguments created {S} _.
Arguments statusItem {S} _.

(** [DidChangeTextDocumentParams] *)
Record DidChangeTextDocumentParams : Type := {
  uri : str;
  contentChanges : list Change
}.

(** The calls the manager makes on session objects. *)
Inductive Call : Type :=
| CallStart (o : nat) (snippet : str)
| CallSynchronize (o : nat) (change : option Change)
| CallCheckPosition (o : nat)
| CallSelect (o : nat)
| CallNext (o : nat)
| CallPrevious (o : nat)
| CallDeactivate (o : nat).

Section WithSession.

Context {S : Type} `{SnippetSession S}.

Definition show (i : StatusBarItem) : StatusBarItem :=
  {| text := text i; visible := true |}.

Definition hide (i : StatusBarItem) : StatusBarItem :=
  {| text := text i; visible := false |}.

Definition initial (statusText : str) : Manager S :=
  {| sessionMap := ∅; created := 0;
     statusItem := {| text := statusText; visible := false |} |}.

Definition getSession (m : Manager S) (bufnr : Z) : option (Obj S) :=
  sessionMap m !! bufnr.

(** [get session()]: the session of the current buffer, if it is active. *)
Definition session (m : Manager S) (w : World) : option (Obj S) :=
  match getSession m (w_bufnr w) with
  | Some o => if isActive (state o) then Some o else None
  | None => None
  end.

Definition withState (o : Obj S) (s : S) : Obj S :=
  {| oid := oid o; objBufnr := objBufnr o; state := s |}.

(** The listener registered by [insertSnippet] on the session it creates
    for [bufnr]. *)
Definition onCancel (m : Manager S) (w : World) (bufnr : Z) : Manager S :=
  {| sessionMap := delete bufnr (sessionMap m);
     created := created m;
     statusItem := if bool_decide (w_bufnr w = bufnr)
                   then hide (statusItem m) else statusItem m |}.

(** A method call on the registered object [o] of buffer [bufnr] returned
    the state [s] with the effects [eff]: the registry sees the mutated
    object, the buffer receives the requests, and the listener runs if the
    session fired [onCancel]. *)
Definition afterCall (m : Manager S) (w : World) (bufnr : Z) (o : Obj S)
    (s : S) (eff : Effects) : Manager S * World :=
  let m1 := {| sessionMap := <[bufnr := withState o s]> (sessionMap m);
               created := created m; statusItem := statusItem m |} in
  (if cancelled eff then onCancel m1 w bufnr else m1,
   applyRequests bufnr w (requests eff)).

(** The [onDidChangeTextDocument] handler. *)
Definition onDidChangeTextDocument (m : Manager S) (w : World)
    (e : DidChangeTextDocumentParams) : Manager S * World * list Call :=
  match w_documents w (uri e) with
  | None => (m, w, [])
  | Some bufnr =>
      match getSession m bufnr with
      | Some o =>
          if isActive (state o) then
            let change := head (contentChanges e) in
            let '(s, eff) := synchronizeUpdatedPlaceholders (state o) change w in
            (afterCall m w bufnr o s eff, [CallSynchronize (oid o) change])
          else (m, w, [])
      | None => (m, w, [])
      end
  end.

(** The [onDidCloseTextDocument] handler. *)
Definition onDidCloseTextDocument (m : Manager S) (w : World) (textDocument : str)
  : Manager S :=
  match w_documents w textDocument with
  | None => m
  | Some bufnr =>
      match getSession m bufnr with
      | Some o =>
          {| sessionMap := delete (objBufnr o) (sessionMap m);
             created := created m; statusItem := statusItem m |}
      | None => m
      end
  end.

(** The [BufEnter] handler. *)
Definition onBufEnter (m : Manager S) (bufnr : Z) : Manager S :=
  {| sessionMap := sessionMap m; created := created m;
     statusItem :=
       match getSession m bufnr with
       | Some o => if isActive (state o) then show (statusItem m) else hide (statusItem m)
       | None => hide (statusItem m)
       end |}.

(** The [InsertEnter] handler. *)
Definition onInsertEnter (m : Manager S) (w : World) : Manager S * World * list Call :=
  match session m w with
  | None => (m, w, [])
  | Some o =>
      let '(s, eff) := checkPosition (state o) w in
      (afterCall m w (w_bufnr w) o s eff, [CallCheckPosition (oid o)])
  end.

(** [insertSnippet(snippet, select, position)] *)
Definition insertSnippet (m : Manager S) (w : World) (snippet : str)
    (select : bool) (position : option nat)
  : Manager S * World * bool * list Call :=
  let bufnr := w_bufnr w in
  let existing := getSession m bufnr in
  let o :=
    match existing with
    | Some o => o
    | None => {| oid := created m; objBufnr := bufnr; state := create bufnr |}
    end in
  let made := match existing with Some _ => created m | None => Datatypes.S (created m) end in
  let '(s, eff, active) := start (state o) snippet select position w in
  (* the session object is mutated in place: a registered one stays the
     registry's entry *)
  let m1 := {| sessionMap :=
                 match existing with
                 | Some _ => <[bufnr := withState o s]> (sessionMap m)
                 | None => sessionMap m
                 end;
               created := made; statusItem := statusItem m |} in
  let m2 := if cancelled eff then onCancel m1 w bufnr else m1 in
  let m3 :=
    if active then
      {| sessionMap := <[bufnr := withState o s]> (sessionMap m2);
         created := created m2; statusItem := show (statusItem m2) |}
    else m2 (* a listener registered in this call is disposed *) in
  (m3, applyRequests bufnr w (requests eff), active, [CallStart (oid o) snippet]).

(** [selectCurrentPlaceholder()] *)
Definition selectCurrent (m : Manager S) (w : World) : Manager S * World * list Call :=
  match session m w with
  | Some o =>
      let '(s, eff) := selectCurrentPlaceholder (state o) w in
      (afterCall m w (w_bufnr w) o s eff, [CallSelect (oid o)])
  | None => (m, w, [])
  end.

Definition disable (m : Manager S) (w : World) : Manager S * World :=
  ({| sessionMap := sessionMap m; created := created m;
      statusItem := hide (statusItem m) |},
   disableSnippetKeys w).

(** [nextPlaceholder()] *)
Definition next (m : Manager S) (w : World) : Manager S * World * list Call :=
  match session m w with
  | Some o =>
      let '(s, eff) := nextPlaceholder (state o) w in
      (afterCall m w (w_bufnr w) o s eff, [CallNext (oid o)])
  | None => (disable m w, [])
  end.

(** [previousPlaceholder()] *)
Definition previous (m : Manager S) (w : World) : Manager S * World * list Call :=
  match session m w with
  | Some o =>
      let '(s, eff) := previousPlaceholder (state o) w in
      (afterCall m w (w_bufnr w) o s eff, [CallPrevious (oid o)])
  | None => (disable m w, [])
  end.

(** [cancel()] *)
Definition cancel (m : Manager S) (w : World) : Manager S * World * list Call :=
  match getSession m (w_bufnr w) with
  | Some o =>
      let '(s, eff) := deactivate (state o) in
      (afterCall m w (w_bufnr w) o s eff, [CallDeactivate (oid o)])
  | None => (disable m w, [])
  end.

(** [dispose()]: [cancel()], then the manager's subscriptions are released. *)
Definition dispose (m : Manager S) (w : World) : Manager S * World * list Call :=
  cancel m w.

(** What can happen to the manager. *)
Inductive Event : Type :=
| EvChange (e : DidChangeTextDocumentParams)
| EvClose (textDocument : str)
| EvBufEnter (bufnr : Z)
| EvInsertEnter
| EvInsertSnippet (snippet : str) (select : bool) (position : option nat)
| EvSelectCurrent
| EvNext
| EvPrevious
| EvCancel.

Definition step (m : Manager S) (w : World) (ev : Event)
  : Manager S * World * list Call :=
  match ev with
  | EvChange e => onDidChangeTextDocument m w e
  | EvClose d => (onDidCloseTextDocument m w d, w, [])
  | EvBufEnter b => (onBufEnter m b, w, [])
  | EvInsertEnter => onInsertEnter m w
  | EvInsertSnippet sn sel pos =>
      let '(m', w', _, cs) := insertSnippet m w sn sel pos in (m', w', cs)
  | EvSelectCurrent => selectCurrent m w
  | EvNext => next m w
  | EvPrevious => previous m w
  | EvCancel => cancel m w
  end.

End WithSession.

Section ResolveSnippet.

Context `{Snippets.VariableResolver}.

(** [resolveSnippet(body)]: the snippet and the requests made to the
    variable resolver. *)
Definition resolveSnippet (body : str) : Snippets.Snippet * list Request :=
  let snippet := Snippets.parse body true in
  let '(resolved, asked) := Snippets.resolveAll snippet in
  (resolved, map Resolve asked).

End ResolveSnippet.

End Manager.

(** ** [SnippetManager] before [workspace.ready]

    The constructor creates the status item in a callback of
    [workspace.ready]; until that has run, [this.statusItem] is
    [undefined].  The handlers and methods below are those of [Manager]
    read with that value: [BufEnter] and [cancel()] test the status item
    before they use it; every other use, [this.statusItem.show()] or
    [this.statusItem.hide()], throws a [TypeError]. *)
Module Unready.

Import Editor Manager.

Record Manager (S : Type) : Type := {
  sessionMap : gmap Z (Obj S);
  created : nat
}.

Arguments sessionMap {S} _.
Arguments created {S} _.

(** How a handler or method ends.  [Returned]: it returned (its promise
    resolved) with the value [r].  [Rejected]: a use of the undefined
    status item threw in the manager's own code, after the state, the
    editor and the calls given.  [ListenerThrew]: the [onCancel] listener
    threw while a session method was running, after having changed the
    registry as given; what the session and its event emitter do with the
    exception is their code. *)
Inductive Outcome (S R : Type) : Type :=
| Returned (m : Manager S) (w : World) (calls : list Call) (r : R)
| Rejected (m : Manager S) (w : World) (calls : list Call)
| ListenerThrew (m : Manager S) (calls : list Call).

Arguments Returned {S R} _ _ _ _.
Arguments Rejected {S R} _ _ _.
Arguments ListenerThrew {S R} _ _.

Section WithSession.

Context {S : Type} `{SnippetSession S}.

(** The state when the constructor has returned. *)
Definition initial : Manager S := {| sessionMap := ∅; created := 0 |}.

(** The callback of [workspace.ready]: the status item is created, with
    the configured [snippetStatusText] or else [SNIP] as its text. *)
Definition ready (m : Manager S) (snippetStatusText : option str) : Manager.Manager S :=
  {| Manager.sessionMap := sessionMap m;
     Manager.created := created m;
     Manager.statusItem :=
       {| text := default (chars "SNIP") snippetStatusText; visible := false |} |}.

Definition getSession (m : Manager S) (bufnr : Z) : option (Obj S) :=
  sessionMap m !! bufnr.

Definition session (m : Manager S) (w : World) : option (Obj S) :=
  match getSession m (w_bufnr w) with
  | Some o => if isActive (state o) then Some o else None
  | None => None
  end.

(** A method call on the registered object [o] of buffer [bufnr] returned
    the state [s] with the effects [eff].  If the session fired [onCancel],
    the listener has deleted the entry and, in the session's own buffer,
    has thrown on [this.statusItem.hide()]. *)
Definition afterCall (m : Manager S) (w : World) (bufnr : Z) (o : Obj S)
    (s : S) (eff : Effects) (calls : list Call) : Outcome S unit :=
  let m1 := {| sessionMap := <[bufnr := withState o s]> (sessionMap m);
               created := created m |} in
  if cancelled eff then
    let m2 := {| sessionMap := delete bufnr (sessionMap m1); created := created m1 |} in
    if bool_decide (w_bufnr w = bufnr)
    then ListenerThrew m2 calls
    else Returned m2 (applyRequests bufnr w (requests eff)) calls tt
  else Returned m1 (applyRequests bufnr w (requests eff)) calls tt.

Definition onDidChangeTextDocument (m : Manager S) (w : World)
    (e : DidChangeTextDocumentParams) : Outcome S unit :=
  match w_documents w (uri e) with
  | None => Returned m w [] tt
  | Some bufnr =>
      match getSession m bufnr with
      | Some o =>
          if isActive (state o) then
            let change := head (contentChanges e) in
            let '(s, eff) := synchronizeUpdatedPlaceholders (state o) change w in
            afterCall m w bufnr o s eff [CallSynchronize (oid o) change]
          else Returned m w [] tt
      | None => Returned m w [] tt
      end
  end.

Definition onDidCloseTextDocument (m : Manager S) (w : World) (textDocument : str)
  : Outcome S unit :=
  match w_documents w textDocument with
  | None => Returned m w [] tt
  | Some bufnr =>
      match getSession m bufnr with
      | Some o =>
          Returned {| sessionMap := delete (objBufnr o) (sessionMap m);
                      created := created m |} w [] tt
      | None => Returned m w [] tt
      end
  end.

(** [BufEnter]: [if (!this.statusItem) return]. *)
Definition onBufEnter (m : Manager S) (w : World) (bufnr : Z) : Outcome S unit :=
  Returned m w [] tt.

Definition onInsertEnter (m : Manager S) (w : World) : Outcome S unit :=
  match session m w with
  | None => Returned m w [] tt
  | Some o =>
      let '(s, eff) := checkPosition (state o) w in
      afterCall m w (w_bufnr w) o s eff [CallCheckPosition (oid o)]
  end.

(** [insertSnippet]: the listener of a session that fires [onCancel]
    during [start] throws, the current buffer being the session's; an
    active [start] is followed by [sessionMap.set] and then by
    [this.statusItem.show()], which throws. *)
Definition insertSnippet (m : Manager S) (w : World) (snippet : str)
    (select : bool) (position : option nat) : Outcome S bool :=
  let bufnr := w_bufnr w in
  let existing := getSession m bufnr in
  let o :=
    match existing with
    | Some o => o
    | None => {| oid := created m; objBufnr := bufnr; state := create bufnr |}
    end in
  let made := match existing with Some _ => created m | None => Datatypes.S (created m) end in
  let '(s, eff, active) := start (state o) snippet select position w in
  let calls := [CallStart (oid o) snippet] in
  let m1 := {| sessionMap :=
                 match existing with
                 | Some _ => <[bufnr := withState o s]> (sessionMap m)
                 | None => sessionMap m
                 end;
               created := made |} in
  if cancelled eff then
    ListenerThrew {| sessionMap := delete bufnr (sessionMap m1); created := made |} calls
  else if active then
    Rejected {| sessionMap := <[bufnr := withState o s]> (sessionMap m1);
                created := made |}
      (applyRequests bufnr w (requests eff)) calls
  else Returned m1 (applyRequests bufnr w (requests eff)) calls false.

Definition selectCurrent (m : Manager S) (w : World) : Outcome S unit :=
  match session m w with
  | Some o =>
      let '(s, eff) := selectCurrentPlaceholder (state o) w in
      afterCall m w (w_bufnr w) o s eff [CallSelect (oid o)]
  | None => Returned m w [] tt
  end.

(** [nextPlaceholder()]: without a session, [coc#snippet#disable] is
    called and [this.statusItem.hide()] throws. *)
Definition next (m : Manager S) (w : World) : Outcome S unit :=
  match session m w with
  | Some o =>
      let '(s, eff) := nextPlaceholder (state o) w in
      afterCall m w (w_bufnr w) o s eff [CallNext (oid o)]
  | None => Rejected m (disableSnippetKeys w) []
  end.

Definition previous (m : Manager S) (w : World) : Outcome S unit :=
  match session m w with
  | Some o =>
      let '(s, eff) := previousPlaceholder (state o) w in
      afterCall m w (w_bufnr w) o s eff [CallPrevious (oid o)]
  | None => Rejected m (disableSnippetKeys w) []
  end.

(** [cancel()]: [if (this.statusItem) this.statusItem.hide()]. *)
Definition cancel (m : Manager S) (w : World) : Outcome S unit :=
  match getSession m (w_bufnr w) with
  | Some o =>
      let '(s, eff) := deactivate (state o) in
      afterCall m w (w_bufnr w) o s eff [CallDeactivate (oid o)]
  | None => Returned m (disableSnippetKeys w) [] tt
  end.

Definition forget {R} (out : Outcome S R) : Outcome S unit :=
  match out with
  | Returned m w calls _ => Returned m w calls tt
  | Rejected m w calls => Rejected m w calls
  | ListenerThrew m calls => ListenerThrew m calls
  end.

Definition step (m : Manager S) (w : World) (ev : Event) : Outcome S unit :=
  match ev with
  | EvChange e => onDidChangeTextDocument m w e
  | EvClose d => onDidCloseTextDocument m w d
  | EvBufEnter b => onBufEnter m w b
  | EvInsertEnter => onInsertEnter m w
  | EvInsertSnippet sn sel pos => forget (insertSnippet m w sn sel pos)
  | EvSelectCurrent => selectCurrent m w
  | EvNext => next m w
  | EvPrevious => previous m w
  | EvCancel => cancel m w
  end.

End WithSession.

End Unready.

(** ** Stand-ins for the collaborators, used by the worked examples *)
Module Demo.

Import Snippets.

(** An engine that knows one pattern, [.*] without the global flag, for
    which the whole input is the match; any other pattern never matches
    and leaves the input as it is. *)
Definition engine : RegExpEngine :=
  fun pattern global _ replacer input =>
    if str_eqb pattern (chars ".*") && negb global then replacer [input] else input.

(** A resolver that knows the file name only. *)
Definition resolver : VariableResolver :=
  fun name => if str_eqb name (chars "TM_FILENAME") then Some (chars "main.ts") else None.

Definition world (t : str) : Editor.World :=
  {| Editor.w_bufnr := 1; Editor.w_cursor := 0; Editor.w_selection := (0, 0);
     Editor.w_buffers := {[ 1%Z := t ]};
     Editor.w_documents := fun u => if str_eqb u (chars "file:///a.ts") then Some 1%Z else None;
     Editor.w_snippetKeys := true |}.

End Demo.

(** * Vocabulary of the properties *)

Definition endsWith (suffix path : str) : Prop := exists p, path = p ++ suffix.

Section ManagerVocabulary.

Import Editor Manager.

Context {S : Type} `{SnippetSession S}.

(** Every registered session object belongs to the buffer it is registered
    for, was constructed by the manager, and is registered once. *)
Definition registryOk (m : Manager S) : Prop :=
  (forall b o, sessionMap m !! b = Some o -> objBufnr o = b /\ oid o < created m) /\
  (forall b1 b2 o1 o2,
      sessionMap m !! b1 = Some o1 -> sessionMap m !! b2 = Some o2 ->
      oid o1 = oid o2 -> b1 = b2).

(** The manager after a sequence of events, each arriving with the editor
    in some state, and the session calls made on the way. *)
Fixpoint run (m : Manager S) (trace : list (World * Event))
  : Manager S * list Call :=
  match trace with
  | [] => (m, [])
  | (w, ev) :: rest =>
      let '(m1, _, cs) := step m w ev in
      let '(m2, cs') := run m1 rest in
      (m2, cs ++ cs')
  end.

Definition callee (c : Call) : nat :=
  match c with
  | CallStart o _ => o
  | CallSynchronize o _ => o
  | CallCheckPosition o => o
  | CallSelect o => o
  | CallNext o => o
  | CallPrevious o => o
  | CallDeactivate o => o
  end.

Definition isSynchronize (c : Call) : bool :=
  match c with CallSynchronize _ _ => true | _ => false end.

Definition registered (m : Manager S) (k : nat) : Prop :=
  exists b o, sessionMap m !! b = Some o /\ oid o = k.

(** The session object [insertSnippet] calls [start] on: the one registered
    for the current buffer, or else a newly constructed one. *)
Definition snippetTarget (m : Manager S) (w : World) : Obj S :=
  match getSession m (w_bufnr w) with
  | Some o => o
  | None => {| oid := created m; objBufnr := w_bufnr w; state := create (w_bufnr w) |}
  end.

(** The event [e] cut down to its first content change. *)
Definition firstChangeOnly (e : DidChangeTextDocumentParams)
  : DidChangeTextDocumentParams :=
  {| uri := uri e; contentChanges := take 1 (contentChanges e) |}.

End ManagerVocabulary.

Section ParserVocabulary.

Import Snippets.

(** What a well-behaved reader of nested content returns on inputs shorter
    than [n]: some result, and never more input than it was given. *)
Definition readsBelow (n : nat)
    (children : str -> option (PResult (list Marker))) : Prop :=
  forall s, length s < n ->
    exists r, children s = Some r /\
      forall cs rest, r = POk cs rest -> length rest <= length s.









(** No marker with a Transform has children. *)
Fixpoint transformsOnLeaves (m : Marker) : bool :=
  match m with
  | Text _ => true
  | Placeholder _ cs _ t =>
      match t, cs with Some _, _ :: _ => false | _, _ => true end
      && forallb transformsOnLeaves cs
  | VariableMarker _ cs t =>
      match t, cs with Some _, _ :: _ => false | _, _ => true end
      && forallb transformsOnLeaves cs
  end.

(** The children of a marker with a Transform are all Text. *)
Fixpoint plain (m : Marker) : bool :=
  match m with
  | Text _ => true
  | Placeholder _ cs _ t =>
      match t with Some _ => forallb isText cs | None => true end
      && forallb plain cs
  | VariableMarker _ cs t =>
      match t with Some _ => forallb isText cs | None => true end
      && forallb plain cs
  end.


End ParserVocabulary.

(** A marker with its span. *)
Abbreviation entry := (Snippets.Marker * (nat * nat))%type.

Section SessionVocabulary.

Import Snippets Editor Session.

Context `{RegExpEngine}.





(** The mirror holds the propagated value [v] as its content. *)
Definition written (v : str) (e : entry) : Prop := childrenOf e.1 = [Text v].





(** What a request does to the text of the session's buffer. *)
Definition editText (t : str) (r : Request) : str :=
  match r with
  | InsertText p x => splice t p p x
  | ReplaceRange p q x => splice t p q x
  | SetSelection _ _ | SetCursor _ | Resolve _ => t
  end.

Definition editsText (t : str) (rs : list Request) : str := fold_left editText rs t.

(** The buffer shows the session's snippet: its text holds the rendered
    tree at the session's origin. *)
Definition shows (t : str) (s : Session) : Prop :=
  exists pre post,
    t = pre ++ renderAll (snippet s) ++ post /\ length pre = origin s.









End SessionVocabulary.

Section ExampleStates.

Import Editor Manager.

#[local] Existing Instance Demo.engine.
#[local] Existing Instance Demo.resolver.

Definition emptyManager : Manager Session.Session := initial (chars "SNIP").

(** A snippet with two tabstops has been inserted into the empty buffer 1. *)
Definition afterFirst : Manager Session.Session * World * bool * list Call :=
  insertSnippet emptyManager (Demo.world []) (chars "$1 and $2") true None.

End ExampleStates.

Section EventVocabulary.

Import Editor Manager.

(** The buffer whose registry entry an event can touch: the buffer of the
    document for a document event, none for [BufEnter], the current buffer
    for everything else. *)
Definition eventBuffer (w : World) (ev : Event) : option Z :=
  match ev with
  | EvChange e => w_documents w (uri e)
  | EvClose d => w_documents w d
  | EvBufEnter _ => None
  | _ => Some (w_bufnr w)
  end.

(** The calls other than [start] and [deactivate]. *)
Definition needsActive (c : Call) : bool :=
  match c with
  | CallStart _ _ | CallDeactivate _ => false
  | _ => true
  end.

End EventVocabulary.

Section FurtherVocabulary.

Import Editor.

(** The editor with [b] as the current buffer. *)
Definition inBuffer (b : Z) (w : World) : World :=
  {| w_bufnr := b; w_cursor := w_cursor w; w_selection := w_selection w;
     w_buffers := w_buffers w; w_documents := w_documents w;
     w_snippetKeys := w_snippetKeys w |}.

Definition noSlash (s : str) : bool := forallb (fun c => negb (Path.isSlash c)) s.

End FurtherVocabulary.

Section FurtherStates.

Import Editor Manager.

#[local] Existing Instance Demo.engine.
#[local] Existing Instance Demo.resolver.

(** Plain text has been inserted into the buffer of [afterFirst]: its
    session is registered and no longer active. *)
Definition afterPlain : Manager Session.Session * World * bool * list Call :=
  insertSnippet afterFirst.1.1.1 afterFirst.1.1.2 (chars "plain") true None.

End FurtherStates.

Section UnreadyVocabulary.

Import Editor Manager.

Context {S : Type} `{SnippetSession S}.

(** The session call an event leads to before [workspace.ready]: the buffer
    the called session is registered for, and the effects of the call. *)
Definition sessionCall (m : Unready.Manager S) (w : World) (ev : Event)
  : option (Z * Effects) :=
  match ev with
  | EvChange e =>
      match w_documents w (uri e) with
      | Some b =>
          match Unready.getSession m b with
          | Some o =>
              if isActive (state o)
              then Some (b, (synchronizeUpdatedPlaceholders (state o)
                               (head (contentChanges e)) w).2)
              else None
          | None => None
          end
      | None => None
      end
  | EvClose _ | EvBufEnter _ => None
  | EvInsertEnter =>
      match Unready.session m w with
      | Some o => Some (w_bufnr w, (checkPosition (state o) w).2)
      | None => None
      end
  | EvInsertSnippet sn sel pos =>
      Some (w_bufnr w,
            (start (state (snippetTarget (Unready.ready m None) w)) sn sel pos w).1.2)
  | EvSelectCurrent =>
      match Unready.session m w with
      | Some o => Some (w_bufnr w, (selectCurrentPlaceholder (state o) w).2)
      | None => None
      end
  | EvNext =>
      match Unready.session m w with
      | Some o => Some (w_bufnr w, (nextPlaceholder (state o) w).2)
      | None => None
      end
  | EvPrevious =>
      match Unready.session m w with
      | Some o => Some (w_bufnr w, (previousPlaceholder (state o) w).2)
      | None => None
      end
  | EvCancel =>
      match Unready.getSession m (w_bufnr w) with
      | Some o => Some (w_bufnr w, (deactivate (state o)).2)
      | None => None
      end
  end.

End UnreadyVocabulary.

(** * Properties *)

(** ** [handles] *)
Section HandlesFacts.

Import LanguageProvider.

Lemma test_suffix r (p q : str) :
  RegExp.test r q = true -> RegExp.test r (p ++ q) = true.
Proof.
  induction p as [|c p IH]; intros H; simpl; [done|].
  rewrite (IH H). apply orb_true_r.
Qed.

Lemma test_two_x_inv a b (s : str) :
  RegExp.test (RegExp.Cat (RegExp.Lit a)
                 (RegExp.Cat (RegExp.Lit b)
                    (RegExp.Cat (RegExp.Opt (RegExp.Lit "x")) RegExp.Eos))) s = true ->
  exists p, s = p ++ [a; b] \/ s = p ++ [a; b; "x"%char].
Proof.
  induction s as [|c s IH]; simpl.
  - discriminate.
  - intros H. apply orb_true_iff in H as [H|H].
    + exists []. simpl.
      case_bool_decide; [subst c|discriminate].
      destruct s as [|d s]; [discriminate|].
      case_bool_decide; [subst d|discriminate].
      destruct s as [|e s]; simpl in H; [by left|].
      case_bool_decide; [subst e|discriminate].
      destruct s; [by right|discriminate].
    + destruct (IH H) as [p [->| ->]]; exists (c :: p); simpl; auto.
Qed.

End HandlesFacts.

Section HandlesTheorems.

Import LanguageProvider.

Lemma test_ts_iff (path : str) :
  RegExp.test RegExp.ts_re path = true <->
  endsWith (chars "ts") path \/ endsWith (chars "tsx") path.
Proof.
  split.
  - intros H. apply test_two_x_inv in H as [p [->| ->]]; [left|right]; by exists p.
  - intros [[p ->]|[p ->]]; by apply test_suffix.
Qed.

Lemma test_js_iff (path : str) :
  RegExp.test RegExp.js_re path = true <->
  endsWith (chars "js") path \/ endsWith (chars "jsx") path.
Proof.
  split.
  - intros H. apply test_two_x_inv in H as [p [->| ->]]; [left|right]; by exists p.
  - intros [[p ->]|[p ->]]; by apply test_suffix.
Qed.

(** C10 (as amended): [handles] answers true exactly when the provider is
    'typescript' and the path ends with the characters ts or tsx (no dot or
    extension boundary is asked for), or the provider is 'javascript' and
    the path ends with js or jsx, or [bufferSyncSupport.handles] accepts the
    resource, or the basename of the path is non-empty and equal to the
    configured [configFile]. *)
Theorem handles_characterised (bs : Uri -> bool) (d : LanguageDescription)
    (resource : Uri) :
  handles bs d resource = true <->
    (id d = chars "typescript" /\
       (endsWith (chars "ts") (fsPath resource) \/ endsWith (chars "tsx") (fsPath resource)))
    \/ (id d = chars "javascript" /\
       (endsWith (chars "js") (fsPath resource) \/ endsWith (chars "jsx") (fsPath resource)))
    \/ bs resource = true
    \/ (Path.basename (fsPath resource) <> [] /\
        configFile d = Some (Path.basename (fsPath resource))).
Proof.
  unfold handles, str_eqb.
  rewrite <- test_ts_iff, <- test_js_iff.
  destruct (decide (id d = chars "typescript")) as [Ht|Ht];
    [rewrite (bool_decide_eq_true_2 _ Ht)|rewrite (bool_decide_eq_false_2 _ Ht)];
  (destruct (decide (id d = chars "javascript")) as [Hj|Hj];
    [rewrite (bool_decide_eq_true_2 _ Hj)|rewrite (bool_decide_eq_false_2 _ Hj)]);
  destruct (RegExp.test RegExp.ts_re (fsPath resource));
  destruct (RegExp.test RegExp.js_re (fsPath resource));
  destruct (bs resource); simpl;
  rewrite ?andb_true_iff, ?negb_true_iff, ?bool_decide_eq_false,
    ?bool_decide_eq_true;
  intuition congruence.
Qed.

(** C10, the claim as stated fails: with an empty basename (the path [/])
    and an empty [configFile], the basename equals the configured name and
    yet [handles] answers false. *)
Lemma handles_empty_basename :
  let d := {| id := chars "typescript"; diagnosticSource := chars "ts";
              modeIds := []; configFile := Some [] |} in
  let resource := {| fsPath := chars "/" |} in
  let bs := fun _ : Uri => false in
  ~ (handles bs d resource = true <->
     (bs resource = true \/ Some (Path.basename (fsPath resource)) = configFile d)).
Proof.
  intros d resource bs [_ Hr].
  assert (Hf : handles bs d resource = false) by reflexivity.
  rewrite Hr in Hf; [discriminate|]. right. reflexivity.
Qed.

(** No extension boundary is needed: a path whose last characters happen to
    be ts is handled by the typescript provider. *)
Example handles_rats :
  handles (fun _ => false)
    {| id := chars "typescript"; diagnosticSource := chars "ts";
       modeIds := []; configFile := Some (chars "tsconfig.json") |}
    {| fsPath := chars "/home/me/rats" |} = true.
Proof. reflexivity. Qed.

End HandlesTheorems.

(** ** The session registry *)
Section RegistryFacts.

Import Editor Manager.

Context {S : Type} `{SnippetSession S}.

Lemma registryOk_status (sm : gmap Z (Obj S)) n i1 i2 :
  registryOk {| sessionMap := sm; created := n; statusItem := i1 |} ->
  registryOk {| sessionMap := sm; created := n; statusItem := i2 |}.
Proof. done. Qed.

Lemma registryOk_delete (sm : gmap Z (Obj S)) n i b :
  registryOk {| sessionMap := sm; created := n; statusItem := i |} ->
  registryOk {| sessionMap := delete b sm; created := n; statusItem := i |}.
Proof.
  intros [H1 H2]; split; simpl in *.
  - intros b' o Hl. apply lookup_delete_Some in Hl as [_ Hl]. eauto.
  - intros b1 b2 o1 o2 Hl1 Hl2.
    apply lookup_delete_Some in Hl1 as [_ Hl1].
    apply lookup_delete_Some in Hl2 as [_ Hl2]. eauto.
Qed.

Lemma registryOk_insert (sm : gmap Z (Obj S)) n i b (o : Obj S) :
  registryOk {| sessionMap := sm; created := n; statusItem := i |} ->
  objBufnr o = b -> oid o < n ->
  (forall b' o', sm !! b' = Some o' -> oid o' = oid o -> b' = b) ->
  registryOk {| sessionMap := <[b := o]> sm; created := n; statusItem := i |}.
Proof.
  intros [H1 H2] Hb Hn Hu; split; simpl in *.
  - intros b' o' Hl. apply lookup_insert_Some in Hl as [[<- <-]|[_ Hl]]; eauto.
  - intros b1 b2 o1 o2 Hl1 Hl2 Heq.
    apply lookup_insert_Some in Hl1 as [[<- <-]|[Hn1 Hl1]];
      apply lookup_insert_Some in Hl2 as [[<- <-]|[Hn2 Hl2]]; eauto.
    symmetry. eauto.
Qed.

Lemma registryOk_more (sm : gmap Z (Obj S)) n i :
  registryOk {| sessionMap := sm; created := n; statusItem := i |} ->
  registryOk {| sessionMap := sm; created := Datatypes.S n; statusItem := i |}.
Proof.
  intros [H1 H2]; split; simpl in *; [|done].
  intros b o Hl. destruct (H1 b o Hl). split; [done|lia].
Qed.

Lemma registryOk_update (m : Manager S) b o s :
  registryOk m -> sessionMap m !! b = Some o ->
  registryOk {| sessionMap := <[b := withState o s]> (sessionMap m);
                created := created m; statusItem := statusItem m |}.
Proof.
  intros Hok Hl. destruct m as [sm n i]; simpl in *.
  destruct (Hok) as [H1 H2]; simpl in *.
  destruct (H1 b o Hl) as [Hb Hn].
  apply registryOk_insert; simpl; eauto.
Qed.

Lemma registryOk_afterCall (m : Manager S) w b o s eff :
  registryOk m -> sessionMap m !! b = Some o ->
  registryOk (afterCall m w b o s eff).1.
Proof.
  intros Hok Hl. unfold afterCall; simpl.
  pose proof (registryOk_update m b o s Hok Hl) as Hu.
  destruct (cancelled eff); [|done].
  unfold onCancel; simpl.
  eapply registryOk_status, registryOk_delete, Hu.
Qed.

Lemma session_lookup (m : Manager S) w o :
  session m w = Some o -> sessionMap m !! w_bufnr w = Some o.
Proof.
  unfold session, getSession.
  destruct (sessionMap m !! w_bufnr w) as [o'|]; [|done].
  destruct (isActive (state o')); naive_solver.
Qed.

Lemma registryOk_insertSnippet (m : Manager S) w sn sel pos :
  registryOk m -> registryOk (insertSnippet m w sn sel pos).1.1.1.
Proof.
  intros Hok. unfold insertSnippet, getSession.
  destruct m as [sm n i]; simpl.
  destruct (sm !! w_bufnr w) as [o|] eqn:Hl; simpl.
  - destruct (start (state o) sn sel pos w) as [[s eff] active]; simpl.
    pose proof (registryOk_update _ _ _ s Hok Hl) as Hu; simpl in Hu.
    destruct Hok as [H1 H2]; simpl in *.
    destruct (H1 _ _ Hl) as [Hb Hn].
    destruct (cancelled eff), active; simpl; try done.
    + apply registryOk_insert; simpl; eauto.
      * eapply registryOk_status, registryOk_delete, Hu.
      * intros b' o' Hl' Heq.
        apply lookup_delete_Some in Hl' as [Hne Hl'].
        rewrite lookup_insert_ne in Hl' by done. eauto.
    + eapply registryOk_status, registryOk_delete, Hu.
    + apply registryOk_insert; simpl; eauto.
      intros b' o' Hl' Heq.
      apply lookup_insert_Some in Hl' as [[? ?]|[Hne Hl']]; eauto.
  - destruct (start (create (w_bufnr w)) sn sel pos w) as [[s eff] active]; simpl.
    pose proof (registryOk_more _ _ i Hok) as Hm.
    destruct (Hok) as [H1 H2]; simpl in *.
    destruct (cancelled eff), active; simpl; try done.
    + apply registryOk_insert; simpl; eauto.
      * eapply registryOk_status, registryOk_delete, Hm.
      * intros b' o' Hl' Heq.
        apply lookup_delete_Some in Hl' as [Hne Hl'].
        destruct (H1 _ _ Hl'). lia.
    + eapply registryOk_status, registryOk_delete, Hm.
    + apply registryOk_insert; simpl; eauto.
      intros b' o' Hl' Heq. destruct (H1 _ _ Hl'). lia.
Qed.

Lemma registryOk_step (m : Manager S) w ev :
  registryOk m -> registryOk (step m w ev).1.1.
Proof.
  intros Hok. destruct ev; simpl.
  - unfold onDidChangeTextDocument, getSession.
    destruct (w_documents w (uri e)) as [b|]; [|done].
    destruct (sessionMap m !! b) as [o|] eqn:Hl; [|done].
    destruct (isActive (state o)); [|done].
    destruct (synchronizeUpdatedPlaceholders _ _ _) as [s eff].
    by apply registryOk_afterCall.
  - unfold onDidCloseTextDocument, getSession.
    destruct (w_documents w textDocument) as [b|]; [|done].
    destruct (sessionMap m !! b) as [o|]; [|done].
    destruct m; by apply registryOk_delete.
  - unfold onBufEnter. destruct m; simpl. eapply registryOk_status, Hok.
  - unfold onInsertEnter.
    destruct (session m w) as [o|] eqn:Hs; [|done].
    destruct (checkPosition _ _) as [s eff].
    apply registryOk_afterCall; [done|]. by apply session_lookup.
  - pose proof (registryOk_insertSnippet m w snippet select position Hok) as Hi.
    destruct (insertSnippet m w snippet select position) as [[[m' w'] a] cs]. done.
  - unfold selectCurrent.
    destruct (session m w) as [o|] eqn:Hs; [|done].
    destruct (selectCurrentPlaceholder _ _) as [s eff].
    apply registryOk_afterCall; [done|]. by apply session_lookup.
  - unfold next.
    destruct (session m w) as [o|] eqn:Hs.
    + destruct (nextPlaceholder _ _) as [s eff].
      apply registryOk_afterCall; [done|]. by apply session_lookup.
    + destruct m; simpl. eapply registryOk_status, Hok.
  - unfold previous.
    destruct (session m w) as [o|] eqn:Hs.
    + destruct (previousPlaceholder _ _) as [s eff].
      apply registryOk_afterCall; [done|]. by apply session_lookup.
    + destruct m; simpl. eapply registryOk_status, Hok.
  - unfold cancel, getSession.
    destruct (sessionMap m !! w_bufnr w) as [o|] eqn:Hl.
    + destruct (deactivate _) as [s eff].
      by apply registryOk_afterCall.
    + destruct m; simpl. eapply registryOk_status, Hok.
Qed.

Lemma registryOk_initial t : registryOk (initial t : Manager S).
Proof. split; simpl; intros *; by rewrite lookup_empty. Qed.

Lemma registryOk_run (m : Manager S) trace :
  registryOk m -> registryOk (run m trace).1.
Proof.
  revert m. induction trace as [|[w ev] rest IH]; intros m Hok; simpl; [done|].
  pose proof (registryOk_step m w ev Hok) as Hs.
  destruct (step m w ev) as [[m1 w1] cs]; simpl in *.
  specialize (IH m1 Hs). destruct (run m1 rest) as [m2 cs']. done.
Qed.

End RegistryFacts.

(** ** What the manager does with its sessions *)
Section ManagerTheorems.

Import Editor Manager.

Context {S : Type} `{SnippetSession S}.

Lemma head_take_1 {A} (l : list A) : head (take 1 l) = head l.
Proof. by destruct l. Qed.

(** C9: of a text-change notification only [contentChanges[0]] reaches the
    session.  When the changed document has a registered session that is
    active, the handler makes exactly one call,
    [synchronizeUpdatedPlaceholders] on that session with the first content
    change; the registry and the buffer afterwards are what that one call
    leaves, and the content changes behind the first one are passed
    nowhere: the handler does exactly what it does for the notification
    cut down to its first change, and it never makes another call. *)
Theorem change_forwards_first_only (m : Manager S) (w : World)
    (e : DidChangeTextDocumentParams) :
  (forall b o c rest,
      w_documents w (uri e) = Some b -> getSession m b = Some o ->
      isActive (state o) = true -> contentChanges e = c :: rest ->
      let r := synchronizeUpdatedPlaceholders (state o) (Some c) w in
      let out := onDidChangeTextDocument m w e in
      out.2 = [CallSynchronize (oid o) (Some c)]
      /\ out.1.2 = applyRequests b w (requests r.2)
      /\ getSession out.1.1 b
         = (if cancelled r.2 then None else Some (withState o r.1)))
  /\ onDidChangeTextDocument m w e = onDidChangeTextDocument m w (firstChangeOnly e)
  /\ ((onDidChangeTextDocument m w e).2 = []
      \/ exists o, (onDidChangeTextDocument m w e).2
                   = [CallSynchronize o (head (contentChanges e))]).
Proof.
  split; [|split].
  - intros b o c rest Hd Hg Ha Hc. cbn zeta.
    unfold onDidChangeTextDocument. rewrite Hd, Hg, Ha, Hc. cbn [head].
    destruct (synchronizeUpdatedPlaceholders (state o) (Some c) w) as [s eff].
    cbn [fst snd]. split; [done|]. split; [done|].
    unfold afterCall, onCancel, getSession. cbn [fst snd].
    destruct (cancelled eff); cbn [sessionMap].
    + apply lookup_delete_eq.
    + apply lookup_insert_eq.
  - unfold onDidChangeTextDocument; simpl. by rewrite head_take_1.
  - unfold onDidChangeTextDocument.
    destruct (w_documents w (uri e)) as [b|]; [|by left].
    destruct (getSession m b) as [o|]; [|by left].
    destruct (isActive (state o)); [|by left].
    destruct (synchronizeUpdatedPlaceholders _ _ _) as [s eff].
    right. by exists (oid o).
Qed.

Lemma insertSnippet_unfold (m : Manager S) w sn sel pos :
  let o := snippetTarget m w in
  let r := start (state o) sn sel pos w in
  let o' := withState o r.1.1 in
  let b := w_bufnr w in
  insertSnippet m w sn sel pos =
    (let m1 := {| sessionMap :=
                    match getSession m b with
                    | Some _ => <[b := o']> (sessionMap m)
                    | None => sessionMap m
                    end;
                  created := match getSession m b with
                             | Some _ => created m
                             | None => Datatypes.S (created m)
                             end;
                  statusItem := statusItem m |} in
     let m2 := if cancelled r.1.2 then onCancel m1 w b else m1 in
     let m3 := if r.2
               then {| sessionMap := <[b := o']> (sessionMap m2);
                       created := created m2; statusItem := show (statusItem m2) |}
               else m2 in
     (m3, applyRequests b w (requests r.1.2), r.2, [CallStart (oid o) sn])).
Proof.
  unfold insertSnippet, snippetTarget; simpl.
  destruct (getSession m (w_bufnr w)); simpl;
    by destruct (start _ sn sel pos w) as [[s eff] active].
Qed.

(** C7 (as amended): [insertSnippet] returns the boolean that [start] of the
    underlying session returned.  When that is false and no session was
    registered for the buffer, none is registered afterwards; when a session
    was registered, the manager does not remove it: it stays registered
    (restarted) unless its own cancel event fired during [start]. *)
Theorem insertSnippet_returns_start (m : Manager S) (w : World) (sn : str)
    (sel : bool) (pos : option nat) :
  let r := start (state (snippetTarget m w)) sn sel pos w in
  let out := insertSnippet m w sn sel pos in
  out.1.2 = r.2
  /\ (r.2 = false -> getSession m (w_bufnr w) = None ->
      getSession out.1.1.1 (w_bufnr w) = None)
  /\ (r.2 = false -> forall o, getSession m (w_bufnr w) = Some o ->
      getSession out.1.1.1 (w_bufnr w)
      = if cancelled r.1.2 then None else Some (withState o r.1.1)).
Proof.
  intros r out. unfold out. rewrite insertSnippet_unfold. fold r. simpl.
  split; [done|]. split.
  - intros -> Hn. rewrite Hn. unfold getSession in *.
    destruct (cancelled r.1.2); simpl; [|done].
    by rewrite lookup_delete_eq.
  - intros -> o Ho. unfold snippetTarget. rewrite Ho. unfold getSession in *.
    destruct (cancelled r.1.2); simpl.
    + by rewrite lookup_delete_eq.
    + by rewrite lookup_insert_eq.
Qed.

(** C1 (as amended): in every state the manager can reach, a buffer has at
    most one registered session, that session was constructed for this very
    buffer, and no session is registered for two buffers.  When
    [insertSnippet] runs in a buffer that already has a session, no session
    is constructed: [start] is called on the registered object, and whatever
    is registered for the buffer afterwards is that same object in the state
    its [start] left it in; it is registered whenever [start] reported
    active. *)
Theorem registry_one_session_per_buffer :
  (forall t trace, registryOk (run (initial t : Manager S) trace).1)
  /\ (forall (m : Manager S) w sn sel pos o,
        getSession m (w_bufnr w) = Some o ->
        let r := start (state o) sn sel pos w in
        let out := insertSnippet m w sn sel pos in
        created out.1.1.1 = created m
        /\ out.2 = [CallStart (oid o) sn]
        /\ (forall o', getSession out.1.1.1 (w_bufnr w) = Some o' ->
                       o' = withState o r.1.1)
        /\ (r.2 = true -> getSession out.1.1.1 (w_bufnr w) = Some (withState o r.1.1))).
Proof.
  split.
  - intros t trace. apply registryOk_run, registryOk_initial.
  - intros m w sn sel pos o Ho r out. unfold out.
    rewrite insertSnippet_unfold. unfold snippetTarget. rewrite Ho. fold r.
    unfold getSession in *. simpl.
    destruct (cancelled r.1.2), r.2; simpl;
      rewrite ?lookup_insert_eq, ?lookup_delete_eq;
      repeat split; try done; intros; by simplify_eq.
Qed.

(** The text-change handler calls [synchronizeUpdatedPlaceholders] exactly
    when the changed document has a registered session that is active. *)
Lemma change_synchronizes_iff (m : Manager S) w e :
  (exists c, c ∈ (onDidChangeTextDocument m w e).2 /\ isSynchronize c = true) <->
  (exists b o, w_documents w (uri e) = Some b /\ getSession m b = Some o
               /\ isActive (state o) = true).
Proof.
  assert (Hnil : forall P : Prop,
             (exists c : Call, c ∈ @nil Call /\ isSynchronize c = true) -> P).
  { intros P (c & Hc & _). by apply elem_of_nil in Hc. }
  unfold onDidChangeTextDocument.
  destruct (w_documents w (uri e)) as [b|]; simpl;
    [|split; [apply Hnil|intros (? & ? & ? & _); discriminate]].
  destruct (getSession m b) as [o|] eqn:Hg; simpl;
    [|split; [apply Hnil|intros (? & ? & ? & ? & _); simplify_eq]].
  destruct (isActive (state o)) eqn:Ha; simpl;
    [|split; [apply Hnil|intros (? & ? & ? & ? & ?); simplify_eq; congruence]].
  destruct (synchronizeUpdatedPlaceholders _ _ _) as [s eff]; simpl.
  split; [intros _; by exists b, o|].
  intros _. eexists; split; [apply list_elem_of_here|done].
Qed.

End ManagerTheorems.

(** ** Sessions that left the registry *)
Section UnregisteredFacts.

Import Editor Manager.

Context {S : Type} `{SnippetSession S}.

Lemma registered_status (sm : gmap Z (Obj S)) n1 n2 i1 i2 k :
  registered {| sessionMap := sm; created := n1; statusItem := i1 |} k ->
  registered {| sessionMap := sm; created := n2; statusItem := i2 |} k.
Proof. done. Qed.

Lemma registered_delete (sm : gmap Z (Obj S)) n i b k :
  registered {| sessionMap := delete b sm; created := n; statusItem := i |} k ->
  registered {| sessionMap := sm; created := n; statusItem := i |} k.
Proof.
  intros (b' & o & Hl & Hk); simpl in *.
  apply lookup_delete_Some in Hl as [_ Hl]. by exists b', o.
Qed.

Lemma registered_insert (sm : gmap Z (Obj S)) n i b o k :
  registered {| sessionMap := <[b := o]> sm; created := n; statusItem := i |} k ->
  k = oid o \/ registered {| sessionMap := sm; created := n; statusItem := i |} k.
Proof.
  intros (b' & o' & Hl & Hk); simpl in *.
  apply lookup_insert_Some in Hl as [[<- <-]|[_ Hl]]; [by left|].
  right. by exists b', o'.
Qed.

Lemma afterCall_registered (m : Manager S) w b o s eff k :
  sessionMap m !! b = Some o ->
  registered (afterCall m w b o s eff).1 k -> registered m k.
Proof.
  intros Hl. unfold afterCall, onCancel; simpl. destruct m as [sm n i]; simpl in *.
  intros Hr.
  assert (Hr' : registered
            {| sessionMap := <[b := withState o s]> sm; created := n; statusItem := i |} k).
  { destruct (cancelled eff); [|done].
    eapply registered_delete, registered_status, Hr. }
  apply registered_insert in Hr' as [->|Hr']; [|done].
  by exists b, o.
Qed.

Lemma insertSnippet_registered (m : Manager S) w sn sel pos k :
  registered (insertSnippet m w sn sel pos).1.1.1 k ->
  registered m k \/ k = created m.
Proof.
  rewrite insertSnippet_unfold; simpl.
  unfold snippetTarget, getSession. destruct m as [sm n i]; simpl.
  set (r := start _ sn sel pos w).
  destruct (sm !! w_bufnr w) as [o|] eqn:Hl; simpl in *; intros Hr.
  - left.
    assert (Hbase : forall k',
      registered {| sessionMap := <[w_bufnr w := withState o r.1.1]> sm;
                    created := n; statusItem := i |} k' ->
      registered {| sessionMap := sm; created := n; statusItem := i |} k').
    { intros k' Hk. apply registered_insert in Hk as [->|Hk]; [|done].
      by exists (w_bufnr w), o. }
    destruct (cancelled r.1.2), r.2; simpl in *.
    + apply registered_insert in Hr as [->|Hr]; [by exists (w_bufnr w), o|].
      apply registered_delete in Hr. eapply Hbase, registered_status, Hr.
    + apply registered_delete in Hr. eapply Hbase, registered_status, Hr.
    + apply registered_insert in Hr as [->|Hr]; [by exists (w_bufnr w), o|].
      eapply Hbase, registered_status, Hr.
    + by apply Hbase.
  - destruct (cancelled r.1.2), r.2; simpl in *.
    + apply registered_insert in Hr as [->|Hr]; [by right|left].
      apply registered_delete in Hr. eapply registered_status, Hr.
    + left. apply registered_delete in Hr. eapply registered_status, Hr.
    + apply registered_insert in Hr as [->|Hr]; [by right|left].
      eapply registered_status, Hr.
    + left. eapply registered_status, Hr.
Qed.

Lemma step_registered (m : Manager S) w ev k :
  registered (step m w ev).1.1 k -> registered m k \/ k = created m.
Proof.
  destruct ev; simpl.
  - unfold onDidChangeTextDocument, getSession.
    destruct (w_documents w (uri e)) as [b|]; [|by left].
    destruct (sessionMap m !! b) as [o|] eqn:Hl; [|by left].
    destruct (isActive (state o)); [|by left].
    destruct (synchronizeUpdatedPlaceholders _ _ _) as [s eff].
    left. by eapply afterCall_registered.
  - unfold onDidCloseTextDocument, getSession.
    destruct (w_documents w textDocument) as [b|]; [|by left].
    destruct (sessionMap m !! b) as [o|]; [|by left].
    destruct m; simpl. left. by eapply registered_delete.
  - unfold onBufEnter. destruct m; simpl. left. by eapply registered_status.
  - unfold onInsertEnter.
    destruct (session m w) as [o|] eqn:Hs; [|by left].
    destruct (checkPosition _ _) as [s eff].
    left. eapply afterCall_registered; [by apply session_lookup|done].
  - intros Hr. apply (insertSnippet_registered m w snippet select position k).
    by destruct (insertSnippet m w snippet select position) as [[[m' w'] a] cs].
  - unfold selectCurrent.
    destruct (session m w) as [o|] eqn:Hs; [|by left].
    destruct (selectCurrentPlaceholder _ _) as [s eff].
    left. eapply afterCall_registered; [by apply session_lookup|done].
  - unfold next.
    destruct (session m w) as [o|] eqn:Hs.
    + destruct (nextPlaceholder _ _) as [s eff].
      left. eapply afterCall_registered; [by apply session_lookup|done].
    + destruct m; simpl. left. by eapply registered_status.
  - unfold previous.
    destruct (session m w) as [o|] eqn:Hs.
    + destruct (previousPlaceholder _ _) as [s eff].
      left. eapply afterCall_registered; [by apply session_lookup|done].
    + destruct m; simpl. left. by eapply registered_status.
  - unfold cancel, getSession.
    destruct (sessionMap m !! w_bufnr w) as [o|] eqn:Hl.
    + destruct (deactivate _) as [s eff].
      left. by eapply afterCall_registered.
    + destruct m; simpl. left. by eapply registered_status.
Qed.

Lemma afterCall_created (m : Manager S) w b o s eff (cs : list Call) :
  created (afterCall m w b o s eff, cs).1.1 = created m.
Proof. unfold afterCall; simpl. by destruct (cancelled eff). Qed.

Lemma step_created (m : Manager S) w ev :
  created m <= created (step m w ev).1.1.
Proof.
  destruct ev; simpl.
  - unfold onDidChangeTextDocument.
    destruct (w_documents w (uri e)) as [b|]; [|done].
    destruct (getSession m b) as [o|]; [|done].
    destruct (isActive (state o)); [|done].
    destruct (synchronizeUpdatedPlaceholders _ _ _) as [s eff].
    by rewrite afterCall_created.
  - unfold onDidCloseTextDocument.
    destruct (w_documents w textDocument) as [b|]; [|done].
    by destruct (getSession m b) as [o|].
  - done.
  - unfold onInsertEnter. destruct (session m w) as [o|]; [|done].
    destruct (checkPosition _ _) as [s eff]. by rewrite afterCall_created.
  - pose proof (insertSnippet_unfold m w snippet select position) as Hu.
    simpl in Hu.
    destruct (insertSnippet m w snippet select position) as [[[m' w'] a] cs].
    simpl. injection Hu as -> _ _ _.
    set (r := start _ _ _ _ _).
    destruct (getSession m (w_bufnr w)), (cancelled r.1.2), r.2; simpl; lia.
  - unfold selectCurrent. destruct (session m w) as [o|]; [|done].
    destruct (selectCurrentPlaceholder _ _) as [s eff]. by rewrite afterCall_created.
  - unfold next. destruct (session m w) as [o|]; [|done].
    destruct (nextPlaceholder _ _) as [s eff]. by rewrite afterCall_created.
  - unfold previous. destruct (session m w) as [o|]; [|done].
    destruct (previousPlaceholder _ _) as [s eff]. by rewrite afterCall_created.
  - unfold cancel. destruct (getSession m (w_bufnr w)) as [o|]; [|done].
    destruct (deactivate _) as [s eff]. by rewrite afterCall_created.
Qed.

Lemma step_callee (m : Manager S) w ev c :
  c ∈ (step m w ev).2 -> registered m (callee c) \/ callee c = created m.
Proof.
  assert (Hone : forall (c' : Call) b o,
             sessionMap m !! b = Some o -> callee c' = oid o ->
             c ∈ [c'] -> registered m (callee c) \/ callee c = created m).
  { intros c' b o Hl Hc Hin. apply list_elem_of_singleton in Hin as ->.
    left. by exists b, o. }
  destruct ev; simpl; try (intros Hin; by apply elem_of_nil in Hin).
  - unfold onDidChangeTextDocument, getSession.
    destruct (w_documents w (uri e)) as [b|];
      [|intros Hin; by apply elem_of_nil in Hin].
    destruct (sessionMap m !! b) as [o|] eqn:Hl;
      [|intros Hin; by apply elem_of_nil in Hin].
    destruct (isActive (state o));
      [|intros Hin; by apply elem_of_nil in Hin].
    destruct (synchronizeUpdatedPlaceholders _ _ _) as [s eff]; simpl.
    by eapply Hone.
  - unfold onInsertEnter.
    destruct (session m w) as [o|] eqn:Hs;
      [|intros Hin; by apply elem_of_nil in Hin].
    destruct (checkPosition _ _) as [s eff]; simpl.
    eapply Hone; [by apply session_lookup|done].
  - pose proof (insertSnippet_unfold m w snippet select position) as Hu.
    simpl in Hu.
    destruct (insertSnippet m w snippet select position) as [[[m' w'] a] cs].
    simpl. injection Hu as _ _ _ ->.
    intros Hin. apply list_elem_of_singleton in Hin as ->. simpl.
    unfold snippetTarget, getSession.
    destruct (sessionMap m !! w_bufnr w) as [o|] eqn:Hl; simpl; [|by right].
    left. by exists (w_bufnr w), o.
  - unfold selectCurrent.
    destruct (session m w) as [o|] eqn:Hs;
      [|intros Hin; by apply elem_of_nil in Hin].
    destruct (selectCurrentPlaceholder _ _) as [s eff]; simpl.
    eapply Hone; [by apply session_lookup|done].
  - unfold next.
    destruct (session m w) as [o|] eqn:Hs;
      [|intros Hin; by apply elem_of_nil in Hin].
    destruct (nextPlaceholder _ _) as [s eff]; simpl.
    eapply Hone; [by apply session_lookup|done].
  - unfold previous.
    destruct (session m w) as [o|] eqn:Hs;
      [|intros Hin; by apply elem_of_nil in Hin].
    destruct (previousPlaceholder _ _) as [s eff]; simpl.
    eapply Hone; [by apply session_lookup|done].
  - unfold cancel, getSession.
    destruct (sessionMap m !! w_bufnr w) as [o|] eqn:Hl;
      [|intros Hin; by apply elem_of_nil in Hin].
    destruct (deactivate _) as [s eff]; simpl.
    by eapply Hone.
Qed.

(** A session object that is no longer registered never receives a call
    again, whatever happens next. *)
Lemma run_never_calls (m : Manager S) trace k :
  k < created m -> ~ registered m k ->
  forall c, c ∈ (run m trace).2 -> callee c <> k.
Proof.
  revert m. induction trace as [|[w ev] rest IH]; intros m Hk Hn c; simpl.
  - intros Hin. by apply elem_of_nil in Hin.
  - pose proof (step_registered m w ev k) as Hreg.
    pose proof (step_created m w ev) as Hcr.
    pose proof (step_callee m w ev) as Hcal.
    destruct (step m w ev) as [[m1 w1] cs]; simpl in *.
    specialize (IH m1).
    destruct (run m1 rest) as [m2 cs']; simpl in *.
    intros Hin. apply elem_of_app in Hin as [Hin|Hin].
    + destruct (Hcal c Hin) as [Hr| ->]; [|lia].
      intros <-. by apply Hn.
    + apply IH; [lia| |done].
      intros Hr. destruct (Hreg Hr) as [?| ->]; [by apply Hn|lia].
Qed.

End UnregisteredFacts.

(** ** The manager over the session of the specification *)
Section SpecSessionManager.

Import Editor Manager.

Context `{Snippets.RegExpEngine} `{Snippets.VariableResolver}.

Lemma cancel_unregisters (m : Manager Session.Session) w :
  getSession (cancel m w).1.1 (w_bufnr w) = None.
Proof.
  unfold cancel, getSession.
  destruct (sessionMap m !! w_bufnr w) as [o|] eqn:Hl; simpl; [|done].
  by rewrite lookup_delete_eq.
Qed.

Lemma cancel_keeps_text (m : Manager Session.Session) w :
  w_buffers (cancel m w).1.2 = w_buffers w.
Proof.
  unfold cancel. by destruct (getSession m (w_bufnr w)) as [o|].
Qed.

Lemma cancel_not_registered (m : Manager Session.Session) w o :
  registryOk m -> getSession m (w_bufnr w) = Some o ->
  ~ registered (cancel m w).1.1 (oid o).
Proof.
  intros [H1 H2] Hl (b & o' & Hl' & Hk). unfold cancel in Hl'.
  rewrite Hl in Hl'. simpl in Hl'. unfold getSession in Hl.
  apply lookup_delete_Some in Hl' as [Hne Hl'].
  rewrite lookup_insert_ne in Hl' by done.
  apply Hne. symmetry. eauto.
Qed.

(** C6: a text-change notification is forwarded to
    [synchronizeUpdatedPlaceholders] exactly when the changed document has a
    registered session whose [isActive] is true, so never to an inactive
    one; [cancel()] leaves every buffer's text as it is and takes the
    session of the current buffer out of the registry; and a session that
    was cancelled never receives a call again, whatever events follow. *)
Theorem inactive_session_not_synchronized :
  (forall (m : Manager Session.Session) w e,
      (exists c, c ∈ (onDidChangeTextDocument m w e).2 /\ isSynchronize c = true) <->
      (exists b o, w_documents w (uri e) = Some b /\ getSession m b = Some o
                   /\ Session.isActive (state o) = true))
  /\ (forall (m : Manager Session.Session) w,
        w_buffers (cancel m w).1.2 = w_buffers w
        /\ getSession (cancel m w).1.1 (w_bufnr w) = None)
  /\ (forall (m : Manager Session.Session) w o trace,
        registryOk m -> getSession m (w_bufnr w) = Some o ->
        forall c, c ∈ (run (cancel m w).1.1 trace).2 -> callee c <> oid o).
Proof.
  split; [|split].
  - intros m w e. exact (change_synchronizes_iff m w e).
  - intros m w. split; [apply cancel_keeps_text|apply cancel_unregisters].
  - intros m w o trace Hok Hl. apply run_never_calls.
    + destruct Hok as [H1 _]. destruct (H1 _ _ Hl) as [_ Hn].
      unfold cancel. rewrite Hl. by simpl.
    + by apply cancel_not_registered.
Qed.

End SpecSessionManager.

(** ** Worked examples of the manager *)
Section ManagerExamples.

Import Editor Manager.

#[local] Existing Instance Demo.engine.
#[local] Existing Instance Demo.resolver.

(** C1, the claim as stated fails: a second [insertSnippet] in the same
    buffer does not put a new session in the place of the prior one; the
    registered session object is still the first one, and the manager has
    constructed one session object in all. *)
Lemma insertSnippet_reuses_session :
  let m1 := afterFirst.1.1.1 in
  let out := insertSnippet m1 afterFirst.1.1.2 (chars "${1:x} $2") true None in
  ~ (forall o1 o2, getSession m1 1 = Some o1 -> getSession out.1.1.1 1 = Some o2 ->
                   oid o2 <> oid o1)
  /\ out.1.2 = true /\ created out.1.1.1 = 1.
Proof.
  split; [|by vm_compute].
  intros Hc.
  assert (H1 : exists o1, getSession afterFirst.1.1.1 1 = Some o1 /\ oid o1 = 0).
  { vm_compute. eexists; split; reflexivity. }
  assert (H2 : exists o2,
             getSession (insertSnippet afterFirst.1.1.1 afterFirst.1.1.2
                           (chars "${1:x} $2") true None).1.1.1 1 = Some o2
             /\ oid o2 = 0).
  { vm_compute. eexists; split; reflexivity. }
  destruct H1 as (o1 & Ho1 & Hi1), H2 as (o2 & Ho2 & Hi2).
  apply (Hc o1 o2 Ho1 Ho2). congruence.
Qed.

Lemma registry_one_session_per_buffer_witness :
  let m1 := (run emptyManager
               [(Demo.world [], EvInsertSnippet (chars "$1 and $2") true None)]).1 in
  registryOk m1
  /\ created (insertSnippet m1 (Demo.world []) (chars "${1:x} $2") true None).1.1.1
     = created m1.
Proof.
  split.
  - apply (proj1 (registry_one_session_per_buffer (S := Session.Session))).
  - assert (Hl : exists o, getSession
        (run emptyManager
           [(Demo.world [], EvInsertSnippet (chars "$1 and $2") true None)]).1
        (w_bufnr (Demo.world [])) = Some o).
    { vm_compute. eexists; reflexivity. }
    destruct Hl as [o Hl].
    apply (proj2 (registry_one_session_per_buffer (S := Session.Session))
             _ (Demo.world []) (chars "${1:x} $2") true None o Hl).
Defined.

(** C7, the claim as stated fails: plain text inserted into a buffer that
    has a session makes [insertSnippet] return false, and the session is
    still registered for the buffer. *)
Lemma insertSnippet_false_keeps_session :
  let out := insertSnippet afterFirst.1.1.1 afterFirst.1.1.2 (chars "plain") true None in
  ~ (out.1.2 = false -> getSession out.1.1.1 1 = None).
Proof.
  intros out Hc.
  assert (Hs : exists o, getSession out.1.1.1 1 = Some o).
  { vm_compute. eexists; reflexivity. }
  destruct Hs as [o Ho]. rewrite Hc in Ho; [discriminate|]. by vm_compute.
Qed.

Lemma insertSnippet_returns_start_witness :
  getSession (insertSnippet emptyManager (Demo.world []) (chars "plain") true None).1.1.1
    (w_bufnr (Demo.world [])) = None.
Proof.
  apply (proj1 (proj2 (insertSnippet_returns_start emptyManager (Demo.world [])
                         (chars "plain") true None))); reflexivity.
Defined.

Lemma change_forwards_first_only_witness :
  let e := {| uri := chars "file:///a.ts";
              contentChanges := [{| rangeStart := 0; rangeEnd := 0; newText := chars "x" |};
                                 {| rangeStart := 5; rangeEnd := 5; newText := chars "y" |}] |} in
  (onDidChangeTextDocument afterFirst.1.1.1 afterFirst.1.1.2 e).2
  = [CallSynchronize 0 (Some {| rangeStart := 0; rangeEnd := 0; newText := chars "x" |})].
Proof.
  assert (Hl : exists o, getSession afterFirst.1.1.1 1 = Some o /\ oid o = 0
                         /\ isActive (state o) = true).
  { vm_compute. eexists; repeat split; reflexivity. }
  destruct Hl as (o & Hl & <- & Ha). intros e.
  assert (Hd : w_documents afterFirst.1.1.2 (uri e) = Some 1%Z) by reflexivity.
  exact (proj1 (proj1 (change_forwards_first_only afterFirst.1.1.1 afterFirst.1.1.2 e)
                  1%Z o _ _ Hd Hl Ha eq_refl)).
Defined.

Lemma inactive_session_not_synchronized_witness :
  let m1 := (run emptyManager
               [(Demo.world [], EvInsertSnippet (chars "$1 and $2") true None)]).1 in
  Forall (fun c => callee c <> 0)
    (run (cancel m1 (Demo.world [])).1.1
       [(Demo.world (chars " and "),
         EvChange {| uri := chars "file:///a.ts";
                     contentChanges := [{| rangeStart := 0; rangeEnd := 0;
                                           newText := chars "x" |}] |});
        (Demo.world (chars "x and "), EvNext)]).2.
Proof.
  intros m1. apply Forall_forall.
  assert (Hl : exists o, getSession m1 (w_bufnr (Demo.world [])) = Some o /\ oid o = 0).
  { vm_compute. eexists; split; reflexivity. }
  destruct Hl as (o & Hl & <-).
  apply (proj2 (proj2 inactive_session_not_synchronized) m1 (Demo.world []) o _).
  - apply registryOk_run, registryOk_initial.
  - exact Hl.
Defined.

End ManagerExamples.

(** ** The parser *)
Section ParserFacts.

Import Snippets.

Lemma Marker_ind' (P : Marker -> Prop) :
  (forall v, P (Text v)) ->
  (forall i cs ch t, Forall P cs -> P (Placeholder i cs ch t)) ->
  (forall n cs t, Forall P cs -> P (VariableMarker n cs t)) ->
  forall m, P m.
Proof.
  intros HT HP HV.
  fix IH 1. intros [v|i cs ch t|n cs t].
  - apply HT.
  - apply HP. induction cs as [|c cs IHcs]; constructor; [apply IH|apply IHcs].
  - apply HV. induction cs as [|c cs IHcs]; constructor; [apply IH|apply IHcs].
Qed.

Lemma span_length p (s : str) : length (span p s).2 <= length s.
Proof.
  induction s as [|c s IH]; simpl; [done|].
  destruct (p c); simpl; [|lia].
  destruct (span p s); simpl in *. lia.
Qed.

Lemma readKey_length (s : str) k r :
  readKey s = Some (k, r) -> length r <= length s.
Proof.
  destruct s as [|c s]; simpl; [done|].
  destruct (isDigit c).
  - pose proof (span_length isDigit s) as Hs.
    destruct (span isDigit s) as [a b]; simpl in *.
    intros [= _ <-]. lia.
  - destruct (isNameStart c); [|done].
    pose proof (span_length isNameChar s) as Hs.
    destruct (span isNameChar s) as [a b]; simpl in *.
    intros [= _ <-]. lia.
Qed.

Lemma parseChoices_length (s : str) : forall cur acc cs r,
  parseChoices cur acc s = POk cs r -> length r <= length s.
Proof.
  induction s as [s IH] using (induction_ltof1 _ (@length ascii)).
  unfold ltof in IH.
  intros cur acc cs r. destruct s as [|c s1]; simpl; [done|].
  destruct (isChar "\" c).
  - destruct s1 as [|e s2]; [done|].
    destruct (isChar "," e || isChar "|" e || isChar "\" e); intros Hp;
      apply IH in Hp; simpl in *; lia.
  - destruct (isChar "," c).
    + intros Hp. apply IH in Hp; simpl in *; lia.
    + destruct (isChar "|" c).
      * destruct s1 as [|d s2]; [done|].
        destruct (isChar "}" d); [|done]. intros [= _ <-]. simpl. lia.
      * intros Hp. apply IH in Hp; simpl in *; lia.
Qed.

Lemma readClause_length (s : str) : forall cur t r,
  readClause cur s = POk t r -> length r <= length s.
Proof.
  induction s as [s IH] using (induction_ltof1 _ (@length ascii)).
  unfold ltof in IH.
  intros cur t r. destruct s as [|c s1]; simpl; [done|].
  destruct (isChar "\" c).
  - destruct s1 as [|e s2]; [done|].
    intros Hp. apply IH in Hp; simpl in *; lia.
  - destruct (isChar "/" c).
    + intros [= _ <-]. lia.
    + intros Hp. apply IH in Hp; simpl in *; lia.
Qed.

Lemma parseTransform_length (s : str) t r :
  parseTransform s = POk t r -> length r <= length s.
Proof.
  unfold parseTransform.
  destruct (readClause [] s) as [re s1| |] eqn:H1; [|done..].
  destruct (readClause [] s1) as [fmt s2| |] eqn:H2; [|done..].
  apply readClause_length in H1, H2.
  pose proof (span_length (fun c => negb (isChar "}" c)) s2) as Hs.
  destruct (span _ s2) as [flags s3]; simpl in *.
  destruct s3 as [|x rest]; [done|].
  intros [= _ <-]. simpl in *. lia.
Qed.

Lemma parseConstruct_total children (s1 : str) :
  readsBelow (length s1) children ->
  exists r, parseConstruct children s1 = Some r /\
    forall m rest, r = POk m rest -> length rest <= length s1.
Proof.
  intros Hc. unfold parseConstruct.
  destruct s1 as [|b s2]; [by eexists|].
  destruct (isChar "{" b).
  - destruct (readKey s2) as [[k s3]|] eqn:Hk.
    + apply readKey_length in Hk.
      destruct s3 as [|d s4]; [by eexists|].
      simpl in Hk.
      destruct (isChar "}" d).
      { eexists; split; [done|]. intros m rest [= _ <-]. simpl. lia. }
      destruct (isChar ":" d).
      { destruct (Hc s4) as (r & -> & Hr); [simpl; lia|].
        destruct r as [cs r| |]; eexists; split; try done.
        intros m rest [= _ <-]. specialize (Hr _ _ eq_refl). simpl. lia. }
      destruct (isChar "|" d).
      { destruct k; [|by eexists].
        destruct (parseChoices [] [] s4) as [cs r| |] eqn:Hp;
          eexists; split; try done.
        intros m rest [= _ <-]. apply parseChoices_length in Hp. simpl. lia. }
      destruct (isChar "/" d); [|by eexists].
      destruct (parseTransform s4) as [t r| |] eqn:Hp;
        eexists; split; try done.
      intros m rest [= _ <-]. apply parseTransform_length in Hp. simpl. lia.
    + destruct s2; by eexists.
  - destruct (readKey (b :: s2)) as [[k rest]|] eqn:Hk; [|by eexists].
    eexists; split; [done|]. intros m r [= _ <-]. by apply readKey_length in Hk.
Qed.

(** With more fuel than characters the descent never runs out: it returns,
    consumes its input at the top level, and inside a brace hands back no
    more than it was given. *)
Lemma parseMarkers_total (fuel : nat) : forall nested (s : str),
  length s < fuel ->
  exists r, parseMarkers fuel nested s = Some r /\
    (forall cs rest, r = POk cs rest -> length rest <= length s) /\
    (nested = false -> exists ms, r = POk ms []).
Proof.
  induction fuel as [|fuel IH]; intros nested s Hlen; [lia|].
  assert (Hcont : forall m (rest : str), length rest < length s ->
    exists r, continueWith (parseMarkers fuel nested rest) m = Some r /\
      (forall cs rest', r = POk cs rest' -> length rest' <= length s) /\
      (nested = false -> exists ms, r = POk ms [])).
  { intros m rest Hr.
    destruct (IH nested rest) as (r & -> & Hl & Ht); [lia|].
    destruct r as [ms r| |]; simpl; eexists; (split; [done|]); split.
    - intros cs rest' [= _ <-]. specialize (Hl _ _ eq_refl). lia.
    - intros Hn. destruct (Ht Hn) as [ms' [= -> ->]]. by eexists.
    - done.
    - intros Hn. by destruct (Ht Hn).
    - done.
    - intros Hn. by destruct (Ht Hn). }
  destruct s as [|c s1]; simpl.
  { eexists; split; [done|]. split.
    - destruct nested; [done|]. intros cs rest [= _ <-]. done.
    - intros ->. by eexists. }
  simpl in Hlen.
  destruct (isChar "}" c && nested) eqn:Hclose.
  { eexists; split; [done|]. split.
    - intros cs rest [= _ <-]. simpl. lia.
    - intros ->. by rewrite andb_false_r in Hclose. }
  destruct (isChar "\" c).
  { destruct s1 as [|e s2]; [apply Hcont; simpl; lia|].
    destruct (isTextEscape e); apply Hcont; simpl; lia. }
  destruct (isChar "$" c); [|apply Hcont; simpl; lia].
  destruct (parseConstruct_total (parseMarkers fuel true) s1) as (r & -> & Hr).
  { intros s4 H4. destruct (IH true s4) as (r & Hp & Hl & _); [lia|].
    by exists r. }
  destruct r as [m rest| |].
  - apply Hcont. specialize (Hr _ _ eq_refl). simpl. lia.
  - apply Hcont. simpl. lia.
  - eexists; split; [done|]. split.
    + destruct nested; [done|]. intros cs rest [= _ <-]. simpl. lia.
    + intros ->. by eexists.
Qed.

Lemma parseOpt_total (template : str) b : parseOpt template b = Some (parse template b).
Proof.
  unfold parse.
  destruct (parseOpt template b) as [sn|] eqn:Hp; [done|exfalso].
  unfold parseOpt in Hp.
  destruct (parseMarkers_total (Datatypes.S (length template)) false template)
    as (r & Hr & _ & Ht); [lia|].
  destruct (Ht eq_refl) as [ms ->]. by rewrite Hr in Hp.
Qed.


End ParserFacts.

(** ** Irregular input degrades to raw text *)
Section DegradeFacts.

Import Snippets.



















(** An unterminated brace behind a well-formed placeholder: the placeholder
    is kept, everything from the unmatched brace's [$] on is raw text. *)
Example parse_unterminated :
  parse (chars "${1:ok} ${2:a ${3:b}") false
  = [Placeholder 1 [Text (chars "ok")] None None; Text (chars " ${2:a ${3:b}")].
Proof. reflexivity. Qed.

End DegradeFacts.

(** ** Variable resolution *)
Section ResolveFacts.

Import Snippets Editor.

Context `{VariableResolver}.

Lemma resolveVariables_placeholder i cs ch t :
  resolveVariables (Placeholder i cs ch t)
  = (Placeholder i (resolveAll cs).1 ch t, (resolveAll cs).2).
Proof.
  simpl.
  match goal with |- context [?f cs] =>
    assert (Hgo : forall ms, f ms = resolveAll ms);
    [ intros ms; induction ms as [|c ms IH]; simpl; [done|by rewrite IH]
    | rewrite Hgo ]
  end.
  by destruct (resolveAll cs).
Qed.

Lemma resolveVariables_variable n c cs t :
  resolveVariables (VariableMarker n (c :: cs) t)
  = (VariableMarker n (resolveAll (c :: cs)).1 t, (resolveAll (c :: cs)).2).
Proof.
  cbn -[resolveAll].
  match goal with |- context [?f cs] =>
    assert (Hgo : forall ms, f ms = resolveAll ms);
    [ intros ms; induction ms as [|c' ms IH]; simpl; [done|by rewrite IH]
    | rewrite Hgo ]
  end.
  simpl. by destruct (resolveVariables c), (resolveAll cs).
Qed.

Lemma resolveAll_cons c cs :
  resolveAll (c :: cs)
  = ((resolveVariables c).1 :: (resolveAll cs).1,
     (resolveVariables c).2 ++ (resolveAll cs).2).
Proof. simpl. by destruct (resolveVariables c), (resolveAll cs). Qed.






End ResolveFacts.

(** ** Unfolding equations of the session's tree walk *)
Section SyncEquations.

Import Snippets Editor Session.

Context `{RegExpEngine}.







End SyncEquations.

(** ** [resolveSnippet] *)
Section ResolveSnippetTheorems.

Import Snippets Editor.

Context `{RegExpEngine} `{VariableResolver}.




End ResolveSnippetTheorems.

(** ** Navigation *)
Section NavigationFacts.

Import Snippets Editor Session.












End NavigationFacts.

Section NavigationTheorem.

Import Snippets Editor Session.

Context `{RegExpEngine} `{VariableResolver}.





End NavigationTheorem.

(** ** Mirror propagation *)
Section MirrorFacts.

Import Snippets Editor Session.

Context `{RegExpEngine}.












Lemma written_render (i : nat) v (e : entry) :
  isPlaceholder i e.1 = true -> written v e ->
  render e.1 = applyTransform (transformOf e.1) v.
Proof.
  destruct e as [[x|j cs ch t|n cs t] sp]; simpl; try done.
  unfold written. simpl. intros _ ->. simpl. by rewrite app_nil_r.
Qed.

End MirrorFacts.

(** ** Shape of the trees the parser builds *)
Section ShapeFacts.

Import Snippets.

Lemma consMarker_Forall (P : Marker -> Prop) m ms :
  (forall v, P (Text v)) -> P m -> Forall P ms -> Forall P (consMarker m ms).
Proof.
  intros HT Hm Hms. destruct m as [a| |]; simpl; try by constructor.
  destruct ms as [|[b| |] ms']; try by constructor.
  inversion Hms; subst. by constructor.
Qed.

Lemma parseConstruct_Forall (P : Marker -> Prop) children (s1 : str) m rest :
  (forall k ch t, P (mkMarker k [] ch t)) ->
  (forall k cs, Forall P cs -> P (mkMarker k cs None None)) ->
  (forall s cs r, children s = Some (POk cs r) -> Forall P cs) ->
  parseConstruct children s1 = Some (POk m rest) -> P m.
Proof.
  intros Hleaf Hnode Hch. unfold parseConstruct.
  destruct s1 as [|b s2]; [done|].
  destruct (isChar "{" b).
  - destruct (readKey s2) as [[k s3]|]; [|by destruct s2].
    destruct s3 as [|d s4]; [done|].
    destruct (isChar "}" d); [intros [= <- _]; apply Hleaf|].
    destruct (isChar ":" d).
    { destruct (children s4) as [[cs r| |]|] eqn:Hc; try done.
      intros [= <- _]. apply Hnode. by eapply Hch. }
    destruct (isChar "|" d).
    { destruct k as [i|]; [|done].
      destruct (parseChoices [] [] s4); try done. intros [= <- _].
      apply (Hleaf (KIndex i)). }
    destruct (isChar "/" d); [|done].
    destruct (parseTransform s4); try done. intros [= <- _]. apply Hleaf.
  - destruct (readKey (b :: s2)) as [[k r]|]; [|done].
    intros [= <- _]. apply Hleaf.
Qed.

(** Whatever holds of Text markers, of childless markers and of markers
    without Transform whose children have it, holds of all the markers the
    descent returns. *)
Lemma parseMarkers_Forall (P : Marker -> Prop) :
  (forall v, P (Text v)) ->
  (forall k ch t, P (mkMarker k [] ch t)) ->
  (forall k cs, Forall P cs -> P (mkMarker k cs None None)) ->
  forall fuel nested (s : str) ms r,
    parseMarkers fuel nested s = Some (POk ms r) -> Forall P ms.
Proof.
  intros HT Hleaf Hnode.
  induction fuel as [|fuel IH]; intros nested s ms r; [done|].
  assert (Hcont : forall m (rest : str),
    P m -> continueWith (parseMarkers fuel nested rest) m = Some (POk ms r) ->
    Forall P ms).
  { intros m rest Hm Hp. unfold continueWith in Hp.
    destruct (parseMarkers fuel nested rest) as [[ms' r'| |]|] eqn:Hrec; try done.
    injection Hp as <- <-. apply consMarker_Forall; eauto. }
  destruct s as [|c s1]; simpl.
  { destruct nested; [done|]. intros [= <- _]. constructor. }
  destruct (isChar "}" c && nested); [intros [= <- _]; constructor|].
  destruct (isChar "\" c).
  { destruct s1 as [|e s2]; [by apply Hcont|].
    destruct (isTextEscape e); by apply Hcont. }
  destruct (isChar "$" c); [|by apply Hcont].
  destruct (parseConstruct (parseMarkers fuel true) s1) as [[m rest| |]|] eqn:Hc;
    try done.
  - apply Hcont. eapply parseConstruct_Forall; eauto.
  - by apply Hcont.
  - destruct nested; [done|]. intros [= <- _]. by repeat constructor.
Qed.

Lemma Forall_forallb {A} (f : A -> bool) (l : list A) :
  Forall (fun x => f x = true) l <-> forallb f l = true.
Proof.
  induction l as [|x l IH]; simpl; [by split; [|constructor]|].
  rewrite Forall_cons, andb_true_iff, IH. done.
Qed.

Lemma parse_transformsOnLeaves (template : str) b :
  forallb transformsOnLeaves (parse template b) = true.
Proof.
  pose proof (parseOpt_total template b) as Hp. unfold parseOpt in Hp.
  destruct (parseMarkers _ false template) as [[ms r| |]|] eqn:Hm; try done.
  injection Hp as <-.
  assert (Hms : Forall (fun m => transformsOnLeaves m = true) ms).
  { eapply parseMarkers_Forall; [..|exact Hm].
    - done.
    - by intros [] ch [].
    - intros [] cs Hcs; simpl; by apply Forall_forallb. }
  apply Forall_forallb. destruct b; [|done].
  unfold ensureFinalTabstop. destruct (existsb _ _); [done|].
  apply Forall_app. split; [done|]. by repeat constructor.
Qed.

Lemma forallb_impl {A} (f g : A -> bool) (l : list A) :
  Forall (fun x => f x = true -> g x = true) l ->
  forallb f l = true -> forallb g l = true.
Proof.
  induction 1 as [|x l Hx _ IH]; simpl; [done|].
  rewrite !andb_true_iff. intros [? ?]. auto.
Qed.

Lemma transformsOnLeaves_plain (m : Marker) :
  transformsOnLeaves m = true -> plain m = true.
Proof.
  induction m as [v|i cs ch t IH|n cs t IH] using Marker_ind'; [done|..];
    simpl; intros Hm; apply andb_true_iff in Hm as [Ht Hcs];
    apply andb_true_iff; (split; [by destruct t, cs|]);
    by eapply forallb_impl.
Qed.

End ShapeFacts.

(** ** Rendered text and leaf text *)
Section RenderFacts.

Import Snippets Editor.

Context `{RegExpEngine}.





End RenderFacts.

(** ** Resolution keeps Transforms over text *)
Section PlainFacts.

Import Snippets Editor.

Context `{VariableResolver}.

Lemma resolveAll_plain_of (ms : Snippet) :
  Forall (fun m => transformsOnLeaves m = true -> plain (resolveVariables m).1 = true) ms ->
  forallb transformsOnLeaves ms = true -> forallb plain (resolveAll ms).1 = true.
Proof.
  induction 1 as [|c cs Hc _ IH]; [done|].
  rewrite resolveAll_cons. simpl. rewrite !andb_true_iff. intros [? ?]. auto.
Qed.

Lemma resolveVariables_plain (m : Marker) :
  transformsOnLeaves m = true -> plain (resolveVariables m).1 = true.
Proof.
  induction m as [v|i cs ch t IH|n cs t IH] using Marker_ind'; [done|..].
  - rewrite resolveVariables_placeholder. simpl.
    intros Hm. apply andb_true_iff in Hm as [Ht Hcs].
    rewrite (resolveAll_plain_of cs IH Hcs), andb_true_r.
    destruct t; [|done]. destruct cs; [done|discriminate].
  - destruct cs as [|c cs].
    + intros _. simpl. destruct (resolve n); simpl; by destruct t.
    + rewrite resolveVariables_variable.
      cbn -[resolveAll]. intros Hm. apply andb_true_iff in Hm as [Ht Hcs].
      destruct t; [done|].
      by apply (resolveAll_plain_of (c :: cs) IH).
Qed.

Lemma resolveAll_plain (ms : Snippet) :
  forallb transformsOnLeaves ms = true -> forallb plain (resolveAll ms).1 = true.
Proof.
  apply resolveAll_plain_of, Forall_forall. intros m _. apply resolveVariables_plain.
Qed.

Lemma ensureFinalTabstop_plain (ms : Snippet) :
  forallb plain ms = true -> forallb plain (ensureFinalTabstop ms) = true.
Proof.
  intros Hms. unfold ensureFinalTabstop. destruct (existsb _ _); [done|].
  rewrite forallb_app, Hms. done.
Qed.






End PlainFacts.

(** ** The buffer text under a session *)
Section BufferFacts.

Import Snippets Editor Session.

Context `{RegExpEngine}.

Lemma editsText_app t rs1 rs2 :
  editsText t (rs1 ++ rs2) = editsText (editsText t rs1) rs2.
Proof. apply fold_left_app. Qed.

Lemma applyRequests_text b w rs :
  bufferText (applyRequests b w rs) b = editsText (bufferText w b) rs.
Proof.
  revert w. induction rs as [|r rs IH]; intros w; [done|].
  simpl. rewrite IH. f_equal.
  destruct r; simpl; unfold bufferText; simpl; by rewrite ?lookup_insert_eq.
Qed.







Lemma render_node j (c : Marker) (cs : Snippet) ch :
  render (Placeholder j (c :: cs) ch None) = renderAll (c :: cs).
Proof. done. Qed.

Lemma render_variable_node n (cs : Snippet) :
  render (VariableMarker n cs None) = renderAll cs.
Proof. done. Qed.




End BufferFacts.

(** ** Mirror propagation *)
Section PropagationFacts.

Import Snippets Editor Session.

Context `{RegExpEngine}.

Lemma Forall3_app' {A B C} (P : A -> B -> C -> Prop) l1 l2 k1 k2 q1 q2 :
  Forall3 P l1 k1 q1 -> Forall3 P l2 k2 q2 ->
  Forall3 P (l1 ++ l2) (k1 ++ k2) (q1 ++ q2).
Proof. apply Forall3_app. Qed.








End PropagationFacts.

Section MirrorTheorem.

Import Snippets Editor Session.

Context `{RegExpEngine} `{VariableResolver}.

End MirrorTheorem.

(** ** The render invariant *)
Section RenderInvariant.

Import Snippets Editor Session.

Context `{RegExpEngine} `{VariableResolver}.








Lemma editsText_resolve (t : str) names : editsText t (map Resolve names) = t.
Proof. induction names as [|n names IH]; [done|]. exact IH. Qed.

Lemma editsText_select (t : str) (s : Session) i b :
  editsText t (selectRequests s i b) = t.
Proof.
  unfold selectRequests. destruct (canonicalOf s i) as [[m [x y]]|]; [|done].
  by destruct b.
Qed.

Lemma shows_insert (t text : str) (at_ : nat) (s : Session) :
  at_ <= length t -> origin s = at_ -> text = renderAll (snippet s) ->
  shows (splice t at_ at_ text) s.
Proof.
  intros Hle Ho ->. exists (take at_ t), (drop at_ t).
  split; [done|]. rewrite Ho. by apply length_take_le.
Qed.

Lemma start_shows (s0 : Session) (template : str) sel pos w (t : str) :
  default (w_cursor w) pos <= length t ->
  let out := start s0 template sel pos w in
  InsertText (default (w_cursor w) pos) (renderAll (snippet out.1.1))
    ∈ requests out.1.2
  /\ shows (editsText t (requests out.1.2)) out.1.1
  /\ forallb plain (snippet out.1.1) = true.
Proof.
  intros Hle. unfold start.
  pose proof (resolveAll_plain _ (parse_transformsOnLeaves template false)) as Hpl.
  destruct (resolveAll (parse template false)) as [declared asked]; simpl in Hpl.
  destruct (flat_map tabstops declared) as [|j js]; cbn [fst snd requests snippet].
  - split; [apply elem_of_app; right; apply list_elem_of_here|].
    split; [|done].
    rewrite editsText_app, editsText_resolve.
    by apply shows_insert.
  - split; [apply elem_of_app; right; apply elem_of_app; left; apply list_elem_of_here|].
    split; [|by apply ensureFinalTabstop_plain].
    rewrite !editsText_app, editsText_resolve, editsText_select.
    by apply shows_insert.
Qed.











(** What [insertSnippet] leaves in the buffer: when the snippet is inserted
    inside the buffer's text and the session is active, the buffer shows
    the tree of the registered session. *)
Lemma insertSnippet_shows (m : Manager.Manager Session) w (sn : str) sel pos :
  default (w_cursor w) pos <= length (bufferText w (w_bufnr w)) ->
  let out := Manager.insertSnippet m w sn sel pos in
  out.1.2 = true ->
  exists o, Manager.getSession out.1.1.1 (w_bufnr w) = Some o
            /\ shows (bufferText out.1.1.2 (w_bufnr w)) (Manager.state o).
Proof.
  intros Hle out Hact. unfold out in *. clear out.
  rewrite insertSnippet_unfold in Hact |- *. cbn zeta in Hact |- *.
  cbn [fst snd] in Hact |- *.
  pose proof (start_shows (Manager.state (snippetTarget m w)) sn sel pos w
                (bufferText w (w_bufnr w)) Hle) as (_ & Hs & _).
  rewrite Hact. eexists. split.
  - unfold Manager.getSession. simpl. apply lookup_insert_eq.
  - rewrite applyRequests_text. exact Hs.
Qed.

End RenderInvariant.

(** ** Worked examples of the session *)
Section SessionExamples.

Import Snippets Editor Session.

#[local] Existing Instance Demo.engine.
#[local] Existing Instance Demo.resolver.


(** Why the canonical mirror of the amended claim has no Transform: in
    [${1/.*/\U$0/}-${1:foo}] the first-declared mirror of tabstop 1 has
    one.  Typing [ab] into it keeps the session active; the other mirror is
    written, the buffer holds [ab-ab], and the tree renders [AB-ab]. *)
Example transformed_canonical_mirror :
  let s := (start (create 1) (chars "${1/.*/\U$0/}-${1:foo}") true (Some 0)
              (Demo.world [])).1.1 in
  let out := synchronizeUpdatedPlaceholders s
               (Some {| rangeStart := 0; rangeEnd := 0; newText := chars "ab" |}) in
  renderAll (snippet s) = chars "-foo"
  /\ isActive out.1 = true
  /\ editsText (splice (chars "-foo") 0 0 (chars "ab")) (requests out.2) = chars "ab-ab"
  /\ renderAll (snippet out.1) = chars "AB-ab"
  /\ leafText (snippet out.1) = chars "ab-ab".
Proof. repeat split; reflexivity. Qed.


(** The edit of the witness, carried out: the buffer holds [fan and fan]. *)
Example render_invariant_text :
  let s := (start (create 1) (chars "${1:foo} and ${1:foo}") true (Some 0)
              (Demo.world [])).1.1 in
  let out := synchronizeUpdatedPlaceholders s
               (Some {| rangeStart := 1; rangeEnd := 3; newText := chars "an" |}) in
  editsText (splice (chars "foo and foo") 1 3 (chars "an")) (requests out.2)
  = chars "fan and fan"
  /\ renderAll (snippet out.1) = chars "fan and fan".
Proof. split; reflexivity. Qed.



(** The transformed mirror of the witness renders [WORLD]. *)
Example mirror_transform_text :
  let s := (start (create 1) (chars "${1:hello}${1/.*/\U$0/}") true (Some 0)
              (Demo.world [])).1.1 in
  let out := synchronizeUpdatedPlaceholders s
               (Some {| rangeStart := 0; rangeEnd := 5; newText := chars "world" |}) in
  renderAll (snippet out.1) = chars "worldWORLD"
  /\ requests out.2 = [ReplaceRange 5 5 (chars "WORLD")].
Proof. split; reflexivity. Qed.



(** The snippet of the witness: the variable is resolved, tabstop 0 is
    appended, and the resolver has been asked once. *)
Example resolveSnippet_text :
  Manager.resolveSnippet (chars "foo $TM_FILENAME")
  = ([Text (chars "foo ");
      VariableMarker (chars "TM_FILENAME") [Text (chars "main.ts")] None;
      Placeholder 0 [] None None],
     [Resolve (chars "TM_FILENAME")]).
Proof. reflexivity. Qed.

(** A choice list renders its first choice. *)
Example choice_default :
  renderAll (parse (chars "${1|red,green,blue|}") false) = chars "red".
Proof. reflexivity. Qed.

End SessionExamples.

(** ** More on [handles] *)
Section HandlesFurther.

Import LanguageProvider.

Lemma skipSlashes_repeat n (r : str) :
  Path.skipSlashes (repeat "/"%char n ++ r) = Path.skipSlashes r.
Proof. induction n as [|n IH]; [done|]. simpl. exact IH. Qed.

Lemma skipSlashes_noSlash (a r : str) :
  a <> [] -> noSlash a = true -> Path.skipSlashes (a ++ r) = a ++ r.
Proof.
  destruct a as [|c a]; [done|]. intros _ Hn. simpl in *.
  apply andb_true_iff in Hn as [Hc _]. by destruct (Path.isSlash c).
Qed.

Lemma segment_noSlash (a r : str) :
  noSlash a = true -> Path.segment (a ++ r) = a ++ Path.segment r.
Proof.
  induction a as [|c a IH]; [done|]. simpl. intros Hn.
  apply andb_true_iff in Hn as [Hc Ha]. destruct (Path.isSlash c); [done|].
  by rewrite IH.
Qed.

Lemma noSlash_rev (a : str) : noSlash (rev a) = noSlash a.
Proof.
  unfold noSlash. induction a as [|c a IH]; [done|]. simpl.
  rewrite forallb_app, IH. simpl. rewrite andb_true_r. apply andb_comm.
Qed.

Lemma basename_last_segment (dir base : str) n :
  base <> [] -> noSlash base = true ->
  dir = [] \/ endsWith (chars "/") dir ->
  Path.basename (dir ++ base ++ repeat "/"%char n) = base.
Proof.
  intros Hne Hns Hdir. unfold Path.basename.
  rewrite !rev_app_distr, rev_repeat, <- app_assoc, skipSlashes_repeat.
  assert (Hr : rev base <> []).
  { intros Hr. apply Hne. by rewrite <- (rev_involutive base), Hr. }
  rewrite skipSlashes_noSlash, segment_noSlash by (by rewrite ?noSlash_rev).
  assert (Hseg : Path.segment (rev dir) = []).
  { destruct Hdir as [->|[p ->]]; [done|]. by rewrite rev_app_distr. }
  by rewrite Hseg, app_nil_r, rev_involutive.
Qed.

(** X1: a path whose last segment is the configured [configFile] is handled,
    in whatever directory the file is and however many separators follow
    the name. *)
Theorem handles_config_file_anywhere (bs : Uri -> bool) (d : LanguageDescription)
    (dir base : str) (n : nat) :
  configFile d = Some base -> base <> [] -> noSlash base = true ->
  dir = [] \/ endsWith (chars "/") dir ->
  handles bs d {| fsPath := dir ++ base ++ repeat "/"%char n |} = true.
Proof.
  intros Hc Hne Hns Hdir. unfold handles. cbn [fsPath].
  destruct (_ && _); [done|]. destruct (_ && _); [done|].
  destruct (bs _); [done|].
  rewrite basename_last_segment by done. rewrite Hc.
  unfold str_eqb. rewrite bool_decide_eq_false_2 by done.
  by rewrite bool_decide_eq_true_2.
Qed.

Lemma handles_config_file_anywhere_witness :
  handles (fun _ => false)
    {| id := chars "typescript"; diagnosticSource := chars "ts"; modeIds := [];
       configFile := Some (chars "tsconfig.json") |}
    {| fsPath := chars "/home/me/" ++ chars "tsconfig.json" ++ repeat "/"%char 2 |}
  = true.
Proof.
  apply handles_config_file_anywhere.
  - reflexivity.
  - discriminate.
  - reflexivity.
  - right. exists (chars "/home/me"). reflexivity.
Defined.


Lemma test_two_x_slash a b (p : str) :
  a <> "/"%char -> b <> "/"%char ->
  RegExp.test (RegExp.Cat (RegExp.Lit a)
                 (RegExp.Cat (RegExp.Lit b)
                    (RegExp.Cat (RegExp.Opt (RegExp.Lit "x")) RegExp.Eos)))
    (p ++ chars "/") = false.
Proof.
  intros Ha Hb. apply not_true_is_false. intros Ht.
  apply test_two_x_inv in Ht as [q [Hq|Hq]].
  - change (q ++ [a; b]) with (q ++ [a] ++ [b]) in Hq. rewrite app_assoc in Hq.
    apply app_inj_tail in Hq as [_ Hq]. simpl in Hq. congruence.
  - change (q ++ [a; b; "x"%char]) with (q ++ [a; b] ++ ["x"%char]) in Hq.
    rewrite app_assoc in Hq. apply app_inj_tail in Hq as [_ Hq]. discriminate.
Qed.

Lemma basename_trailing_separator (p : str) :
  Path.basename (p ++ chars "/") = Path.basename p.
Proof. unfold Path.basename. by rewrite rev_app_distr. Qed.

(** X2: a path that ends with a separator is never accepted for its last
    characters: it is handled exactly when [bufferSyncSupport.handles]
    accepts it or the name in front of the separator is the configured
    [configFile]. *)
Theorem handles_trailing_separator (bs : Uri -> bool) (d : LanguageDescription)
    (p : str) :
  handles bs d {| fsPath := p ++ chars "/" |}
  = bs {| fsPath := p ++ chars "/" |}
    || (negb (str_eqb (Path.basename p) [])
        && bool_decide (Some (Path.basename p) = configFile d)).
Proof.
  unfold handles. cbn [fsPath].
  unfold RegExp.ts_re, RegExp.js_re.
  rewrite !test_two_x_slash by discriminate.
  rewrite !andb_false_r, basename_trailing_separator.
  by destruct (bs _).
Qed.

End HandlesFurther.

(** ** More on the manager *)
Section ManagerFurther.

Import Editor Manager.

Context {S : Type} `{SnippetSession S}.

Lemma afterCall_other (m : Manager S) w b o s eff b' :
  b' <> b -> getSession (afterCall m w b o s eff).1 b' = getSession m b'.
Proof.
  intros Hne. unfold afterCall, onCancel, getSession; simpl.
  destruct (cancelled eff); simpl;
    by rewrite ?lookup_delete_ne, ?lookup_insert_ne by done.
Qed.

Lemma afterCall_same (m : Manager S) w b o s eff :
  getSession (afterCall m w b o s eff).1 b
  = if cancelled eff then None else Some (withState o s).
Proof.
  unfold afterCall, onCancel, getSession; simpl.
  destruct (cancelled eff); simpl;
    by rewrite ?lookup_delete_eq, ?lookup_insert_eq.
Qed.

Lemma afterCall_status (m : Manager S) w b o s eff :
  statusItem (afterCall m w b o s eff).1
  = if cancelled eff && bool_decide (w_bufnr w = b)
    then hide (statusItem m) else statusItem m.
Proof.
  unfold afterCall, onCancel; simpl.
  destruct (cancelled eff); [|done]. simpl. by case_bool_decide.
Qed.

Lemma session_Some (m : Manager S) w o :
  session m w = Some o <->
  getSession m (w_bufnr w) = Some o /\ isActive (state o) = true.
Proof.
  unfold session. destruct (getSession m (w_bufnr w)) as [o'|].
  - destruct (isActive (state o')) eqn:Ha.
    + split; [intros [= ->]; by split|by intros [[= ->] _]].
    + split; [done|intros [[= ->] Ho]; congruence].
  - split; [done|by intros [? _]].
Qed.

Lemma step_insertSnippet (m : Manager S) w sn sel pos :
  step m w (EvInsertSnippet sn sel pos)
  = ((insertSnippet m w sn sel pos).1.1.1, (insertSnippet m w sn sel pos).1.1.2,
     (insertSnippet m w sn sel pos).2).
Proof. simpl. by destruct (insertSnippet m w sn sel pos) as [[[m' w'] a] cs]. Qed.

(** X3: an event touches the registry entry of one buffer at most. *)
Theorem step_touches_one_buffer (m : Manager S) w ev b :
  registryOk m -> eventBuffer w ev <> Some b ->
  getSession (step m w ev).1.1 b = getSession m b.
Proof.
  intros Hok Hb.
  destruct ev; try rewrite step_insertSnippet; simpl in *.
  - unfold onDidChangeTextDocument.
    destruct (w_documents w (uri e)) as [b0|]; [|done].
    destruct (getSession m b0) as [o|]; [|done].
    destruct (isActive (state o)); [|done].
    destruct (synchronizeUpdatedPlaceholders _ _ _) as [s eff]; simpl.
    apply afterCall_other. congruence.
  - unfold onDidCloseTextDocument.
    destruct (w_documents w textDocument) as [b0|]; [|done].
    destruct (getSession m b0) as [o|] eqn:Hg; [|done].
    destruct Hok as [H1 _]. destruct (H1 _ _ Hg) as [Hb0 _].
    unfold getSession; simpl. rewrite lookup_delete_ne; [done|congruence].
  - done.
  - unfold onInsertEnter. destruct (session m w) as [o|]; [|done].
    destruct (checkPosition _ _) as [s eff]; simpl.
    apply afterCall_other. congruence.
  - rewrite insertSnippet_unfold. cbn zeta. cbn [fst snd].
    assert (Hne : w_bufnr w <> b) by congruence.
    unfold getSession, onCancel.
    destruct (sessionMap m !! w_bufnr w), (cancelled _), (start _ _ _ _ _).2; simpl;
      by rewrite ?lookup_insert_ne, ?lookup_delete_ne, ?lookup_insert_ne by done.
  - unfold selectCurrent. destruct (session m w) as [o|]; [|done].
    destruct (selectCurrentPlaceholder _ _) as [s eff]; simpl.
    apply afterCall_other. congruence.
  - unfold next. destruct (session m w) as [o|]; [|done].
    destruct (nextPlaceholder _ _) as [s eff]; simpl.
    apply afterCall_other. congruence.
  - unfold previous. destruct (session m w) as [o|]; [|done].
    destruct (previousPlaceholder _ _) as [s eff]; simpl.
    apply afterCall_other. congruence.
  - unfold cancel. destruct (getSession m (w_bufnr w)) as [o|]; [|done].
    destruct (deactivate _) as [s eff]; simpl.
    apply afterCall_other. congruence.
Qed.


Lemma afterCall_from (m : Manager S) w b o s eff b' o' :
  getSession m b = Some o ->
  getSession (afterCall m w b o s eff).1 b' = Some o' ->
  exists o0, getSession m b' = Some o0 /\ oid o' = oid o0 /\ objBufnr o' = objBufnr o0.
Proof.
  intros Hg Hl. destruct (decide (b' = b)) as [->|Hne].
  - rewrite afterCall_same in Hl. destruct (cancelled eff); [done|].
    injection Hl as <-. by exists o.
  - rewrite afterCall_other in Hl by done. by exists o'.
Qed.

(** X4: only [insertSnippet] registers a session, and only for the current
    buffer when it has none; whatever else is registered after an event was
    registered before, for the same buffer and as the same object. *)
Theorem step_registers_only_by_insertSnippet (m : Manager S) w ev b o' :
  getSession (step m w ev).1.1 b = Some o' ->
  (exists o, getSession m b = Some o /\ oid o' = oid o /\ objBufnr o' = objBufnr o)
  \/ (exists sn sel pos, ev = EvInsertSnippet sn sel pos /\ b = w_bufnr w
        /\ getSession m b = None /\ oid o' = created m /\ objBufnr o' = b).
Proof.
  assert (Hsame : getSession m b = Some o' ->
            exists o, getSession m b = Some o /\ oid o' = oid o
                      /\ objBufnr o' = objBufnr o) by (intros; by exists o').
  destruct ev; try rewrite step_insertSnippet; simpl.
  - unfold onDidChangeTextDocument.
    destruct (w_documents w (uri e)) as [b0|]; [|by left; auto].
    destruct (getSession m b0) as [o|] eqn:Hg; [|by left; auto].
    destruct (isActive (state o)); [|by left; auto].
    destruct (synchronizeUpdatedPlaceholders _ _ _) as [s eff]; simpl.
    intros Hl. left. exact (afterCall_from m w _ o s eff b o' Hg Hl).
  - unfold onDidCloseTextDocument.
    destruct (w_documents w textDocument) as [b0|]; [|by left; auto].
    destruct (getSession m b0) as [o|] eqn:Hg; [|by left; auto].
    unfold getSession; simpl. intros Hl.
    apply lookup_delete_Some in Hl as [_ Hl]. left. by exists o'.
  - by left; auto.
  - unfold onInsertEnter. destruct (session m w) as [o|] eqn:Hs; [|by left; auto].
    apply session_Some in Hs as [Hg _].
    destruct (checkPosition _ _) as [s eff]; simpl.
    intros Hl. left. exact (afterCall_from m w _ o s eff b o' Hg Hl).
  - rewrite insertSnippet_unfold. cbn zeta. cbn [fst snd].
    unfold snippetTarget. set (r := start _ _ _ _ _).
    destruct (decide (b = w_bufnr w)) as [->|Hne].
    + unfold getSession in *. unfold onCancel.
      destruct (sessionMap m !! w_bufnr w) as [o|] eqn:Hg; simpl in *;
        destruct (cancelled r.1.2), r.2; simpl;
        rewrite ?lookup_insert_eq, ?lookup_delete_eq; intros Hl; simplify_eq;
        try (left; by exists o);
        try (right; by exists snippet, select, position).
    + unfold getSession in *. unfold onCancel.
      destruct (sessionMap m !! w_bufnr w) as [o|] eqn:Hg; simpl in *;
        destruct (cancelled r.1.2), r.2; simpl;
        rewrite ?lookup_insert_ne, ?lookup_delete_ne, ?lookup_insert_ne by done;
        by left; auto.
  - unfold selectCurrent. destruct (session m w) as [o|] eqn:Hs; [|by left; auto].
    apply session_Some in Hs as [Hg _].
    destruct (selectCurrentPlaceholder _ _) as [s eff]; simpl.
    intros Hl. left. exact (afterCall_from m w _ o s eff b o' Hg Hl).
  - unfold next. destruct (session m w) as [o|] eqn:Hs; [|by left; auto].
    apply session_Some in Hs as [Hg _].
    destruct (nextPlaceholder _ _) as [s eff]; simpl.
    intros Hl. left. exact (afterCall_from m w _ o s eff b o' Hg Hl).
  - unfold previous. destruct (session m w) as [o|] eqn:Hs; [|by left; auto].
    apply session_Some in Hs as [Hg _].
    destruct (previousPlaceholder _ _) as [s eff]; simpl.
    intros Hl. left. exact (afterCall_from m w _ o s eff b o' Hg Hl).
  - unfold cancel. destruct (getSession m (w_bufnr w)) as [o|] eqn:Hg; [|by left; auto].
    destruct (deactivate _) as [s eff]; simpl.
    intros Hl. left. exact (afterCall_from m w _ o s eff b o' Hg Hl).
Qed.

(** X5: an event leads to one session call at most, and every call other than
    [start] and [deactivate] goes to the session registered for the event's
    buffer, which is active when it is called. *)
Theorem calls_need_active_session (m : Manager S) w ev :
  length (step m w ev).2 <= 1
  /\ Forall (fun c =>
               needsActive c = true ->
               exists b o, eventBuffer w ev = Some b /\ getSession m b = Some o
                           /\ oid o = callee c /\ isActive (state o) = true)
       (step m w ev).2.
Proof.
  destruct ev; try rewrite step_insertSnippet; simpl.
  - unfold onDidChangeTextDocument.
    destruct (w_documents w (uri e)) as [b0|] eqn:Hd; [|by split; [simpl; lia|]].
    destruct (getSession m b0) as [o|] eqn:Hg; [|by split; [simpl; lia|]].
    destruct (isActive (state o)) eqn:Ha; [|by split; [simpl; lia|]].
    destruct (synchronizeUpdatedPlaceholders _ _ _) as [s eff]; simpl.
    split; [lia|]. repeat constructor. intros _. by exists b0, o.
  - by split; [lia|].
  - by split; [lia|].
  - unfold onInsertEnter. destruct (session m w) as [o|] eqn:Hs; [|by split; [simpl; lia|]].
    apply session_Some in Hs as [Hg Ha].
    destruct (checkPosition _ _) as [s eff]; simpl.
    split; [lia|]. repeat constructor. intros _. by exists (w_bufnr w), o.
  - rewrite insertSnippet_unfold. cbn zeta. cbn [fst snd]. simpl.
    split; [lia|]. by repeat constructor.
  - unfold selectCurrent. destruct (session m w) as [o|] eqn:Hs; [|by split; [simpl; lia|]].
    apply session_Some in Hs as [Hg Ha].
    destruct (selectCurrentPlaceholder _ _) as [s eff]; simpl.
    split; [lia|]. repeat constructor. intros _. by exists (w_bufnr w), o.
  - unfold next. destruct (session m w) as [o|] eqn:Hs; [|by split; [simpl; lia|]].
    apply session_Some in Hs as [Hg Ha].
    destruct (nextPlaceholder _ _) as [s eff]; simpl.
    split; [lia|]. repeat constructor. intros _. by exists (w_bufnr w), o.
  - unfold previous. destruct (session m w) as [o|] eqn:Hs; [|by split; [simpl; lia|]].
    apply session_Some in Hs as [Hg Ha].
    destruct (previousPlaceholder _ _) as [s eff]; simpl.
    split; [lia|]. repeat constructor. intros _. by exists (w_bufnr w), o.
  - unfold cancel. destruct (getSession m (w_bufnr w)) as [o|] eqn:Hg; [|by split; [simpl; lia|]].
    destruct (deactivate _) as [s eff]; simpl.
    split; [lia|]. by repeat constructor.
Qed.


(** X6: closing a document takes the session of its buffer out of the registry
    and nothing else: every other buffer keeps its session, and the status
    item stays as it is. *)
Theorem close_removes_session (m : Manager S) w d b :
  registryOk m -> w_documents w d = Some b ->
  let m' := onDidCloseTextDocument m w d in
  getSession m' b = None
  /\ (forall b', b' <> b -> getSession m' b' = getSession m b')
  /\ statusItem m' = statusItem m.
Proof.
  intros Hok Hd. cbn zeta. unfold onDidCloseTextDocument. rewrite Hd.
  destruct (getSession m b) as [o|] eqn:Hg; [|done].
  destruct Hok as [H1 _]. destruct (H1 _ _ Hg) as [-> _].
  unfold getSession; simpl.
  split; [apply lookup_delete_eq|]. split; [|done].
  intros b' Hne. by rewrite lookup_delete_ne.
Qed.

(** X7: the session of a closed document never receives a call again, whatever
    events follow. *)
Theorem closed_session_never_called (m : Manager S) w d b o trace :
  registryOk m -> w_documents w d = Some b -> getSession m b = Some o ->
  Forall (fun c => callee c <> oid o) (run (onDidCloseTextDocument m w d) trace).2.
Proof.
  intros Hok Hd Hg. apply Forall_forall. intros c Hc.
  revert c Hc. apply run_never_calls.
  - destruct Hok as [H1 _]. destruct (H1 _ _ Hg) as [_ Hn].
    unfold onDidCloseTextDocument. by rewrite Hd, Hg.
  - intros (b' & o' & Hl & Hk).
    unfold onDidCloseTextDocument in Hl. rewrite Hd, Hg in Hl. simpl in Hl.
    destruct (Hok) as [H1 H2]. destruct (H1 _ _ Hg) as [Hb _].
    apply lookup_delete_Some in Hl as [Hne Hl].
    apply Hne. rewrite Hb. symmetry. by eapply H2.
Qed.

(** X8: after [BufEnter] the status item is visible exactly when the entered
    buffer has an active session; the registry is not touched, and of two
    [BufEnter] events the later one decides. *)
Theorem bufEnter_shows_active (m : Manager S) w :
  (visible (statusItem (onBufEnter m (w_bufnr w))) = true <-> is_Some (session m w))
  /\ (forall b, sessionMap (onBufEnter m b) = sessionMap m)
  /\ (forall b b', onBufEnter (onBufEnter m b) b' = onBufEnter m b').
Proof.
  split; [|split].
  - unfold onBufEnter, session; simpl.
    destruct (getSession m (w_bufnr w)) as [o|]; simpl.
    + destruct (isActive (state o)); simpl; by split.
    + split; [done|by intros [? ?]].
  - done.
  - intros b b'. unfold onBufEnter, getSession; simpl.
    f_equal. destruct (sessionMap m !! b) as [o|], (sessionMap m !! b') as [o'|];
      simpl; try done; by repeat destruct (isActive _).
Qed.

(** X9: without an active session in the current buffer (none registered, or
    one that is not active), [nextPlaceholder] and [previousPlaceholder]
    switch the snippet key mappings off and hide the status item, and
    [selectCurrentPlaceholder] and [InsertEnter] do nothing; no session is
    called, and a registered session that is not active stays registered. *)
Theorem navigation_without_active_session (m : Manager S) w :
  session m w = None ->
  Forall (fun out : Manager S * World * list Call =>
            sessionMap out.1.1 = sessionMap m
            /\ visible (statusItem out.1.1) = false
            /\ out.1.2 = disableSnippetKeys w
            /\ out.2 = [])
    [next m w; previous m w]
  /\ Forall (fun out : Manager S * World * list Call => out = (m, w, []))
       [selectCurrent m w; onInsertEnter m w].
Proof.
  intros Hs. unfold next, previous, selectCurrent, onInsertEnter. rewrite Hs.
  split; by repeat constructor.
Qed.

(** X10: [cancel()] reaches the session registered for the current buffer
    whether it is active or not: [deactivate] is called on it once, the
    snippet key mappings are not switched off by the manager, and the
    session leaves the registry exactly when it fires its cancel event;
    without a registered session the key mappings are switched off and the
    status item is hidden. *)
Theorem cancel_outcome (m : Manager S) w :
  match getSession m (w_bufnr w) with
  | Some o =>
      let r := deactivate (state o) in
      (cancel m w).2 = [CallDeactivate (oid o)]
      /\ (cancel m w).1.2 = applyRequests (w_bufnr w) w (requests r.2)
      /\ getSession (cancel m w).1.1 (w_bufnr w)
         = (if cancelled r.2 then None else Some (withState o r.1))
      /\ statusItem (cancel m w).1.1
         = (if cancelled r.2 then hide (statusItem m) else statusItem m)
  | None =>
      (cancel m w).2 = []
      /\ (cancel m w).1.2 = disableSnippetKeys w
      /\ sessionMap (cancel m w).1.1 = sessionMap m
      /\ visible (statusItem (cancel m w).1.1) = false
  end.
Proof.
  unfold cancel. destruct (getSession m (w_bufnr w)) as [o|] eqn:Hg; [|done].
  cbn zeta. destruct (deactivate (state o)) as [s eff]. cbn [fst snd].
  split; [done|]. split; [done|].
  rewrite afterCall_same, afterCall_status.
  split; [done|]. rewrite bool_decide_eq_true_2 by done. by rewrite andb_true_r.
Qed.

Lemma step_status (m : Manager S) w ev :
  text (statusItem (step m w ev).1.1) = text (statusItem m)
  /\ (visible (statusItem (step m w ev).1.1) = true ->
      visible (statusItem m) = true
      \/ (exists sn sel pos, ev = EvInsertSnippet sn sel pos
                             /\ (insertSnippet m w sn sel pos).1.2 = true)
      \/ (exists b o, ev = EvBufEnter b /\ getSession m b = Some o
                      /\ isActive (state o) = true)).
Proof.
  assert (Hafter : forall b o s eff,
            text (statusItem (afterCall m w b o s eff).1) = text (statusItem m)
            /\ (visible (statusItem (afterCall m w b o s eff).1) = true ->
                visible (statusItem m) = true)).
  { intros b o s eff. rewrite afterCall_status. by destruct (_ && _). }
  destruct ev; try rewrite step_insertSnippet; cbn [step fst snd].
  - unfold onDidChangeTextDocument.
    destruct (w_documents w (uri e)) as [b0|]; [|by split; [|left]].
    destruct (getSession m b0) as [o|]; [|by split; [|left]].
    destruct (isActive (state o)); [|by split; [|left]].
    destruct (synchronizeUpdatedPlaceholders _ _ _) as [s eff]; cbn [fst snd].
    destruct (Hafter b0 o s eff) as [Ht Hv]. split; [done|]. intros Hvis. left. auto.
  - unfold onDidCloseTextDocument.
    destruct (w_documents w textDocument) as [b0|]; [|by split; [|left]].
    destruct (getSession m b0) as [o|]; by split; [|left].
  - unfold onBufEnter; simpl.
    destruct (getSession m bufnr) as [o|] eqn:Hg; simpl.
    + destruct (isActive (state o)) eqn:Ha; simpl; split; try done.
      intros _. right. right. by exists bufnr, o.
    + by split.
  - unfold onInsertEnter. destruct (session m w) as [o|]; [|by split; [|left]].
    destruct (checkPosition _ _) as [s eff]; cbn [fst snd].
    destruct (Hafter (w_bufnr w) o s eff) as [Ht Hv]. split; [done|]. intros Hvis. left. auto.
  - rewrite insertSnippet_unfold. cbn zeta. cbn [fst snd].
    set (r := start _ _ _ _ _). unfold onCancel.
    destruct (cancelled r.1.2), r.2 eqn:Hr; simpl;
      rewrite ?bool_decide_eq_true_2 by done; simpl; (split; [done|]); intros Hvis;
      try done; try (by left); right; left; exists snippet, select, position;
      (split; [done|]); rewrite insertSnippet_unfold; exact Hr.
  - unfold selectCurrent. destruct (session m w) as [o|]; [|by split; [|left]].
    destruct (selectCurrentPlaceholder _ _) as [s eff]; cbn [fst snd].
    destruct (Hafter (w_bufnr w) o s eff) as [Ht Hv]. split; [done|]. intros Hvis. left. auto.
  - unfold next. destruct (session m w) as [o|]; [|by split].
    destruct (nextPlaceholder _ _) as [s eff]; cbn [fst snd].
    destruct (Hafter (w_bufnr w) o s eff) as [Ht Hv]. split; [done|]. intros Hvis. left. auto.
  - unfold previous. destruct (session m w) as [o|]; [|by split].
    destruct (previousPlaceholder _ _) as [s eff]; cbn [fst snd].
    destruct (Hafter (w_bufnr w) o s eff) as [Ht Hv]. split; [done|]. intros Hvis. left. auto.
  - unfold cancel. destruct (getSession m (w_bufnr w)) as [o|]; [|by split].
    destruct (deactivate _) as [s eff]; cbn [fst snd].
    destruct (Hafter (w_bufnr w) o s eff) as [Ht Hv]. split; [done|]. intros Hvis. left. auto.
Qed.

(** X11: the status item is made visible by [insertSnippet] when it returns true
    and by [BufEnter] on a buffer with an active session, and by nothing
    else. *)
Theorem status_shown_only_by (m : Manager S) w ev :
  visible (statusItem (step m w ev).1.1) = true ->
  visible (statusItem m) = true
  \/ (exists sn sel pos, ev = EvInsertSnippet sn sel pos
                         /\ (insertSnippet m w sn sel pos).1.2 = true)
  \/ (exists b o, ev = EvBufEnter b /\ getSession m b = Some o
                  /\ isActive (state o) = true).
Proof. apply step_status. Qed.

(** X12: no handler and no method changes the text of the status item: after any
    sequence of events it is the text the manager started with. *)
Theorem status_text_kept (t : str) (trace : list (World * Event)) :
  text (statusItem (run (initial t : Manager S) trace).1) = t.
Proof.
  change t with (text (statusItem (initial t : Manager S))) at 2.
  generalize (initial t : Manager S). intros m. revert m.
  induction trace as [|[w ev] rest IH]; intros m; simpl; [done|].
  pose proof (proj1 (step_status m w ev)) as Hs.
  destruct (step m w ev) as [[m1 w1] cs]; simpl in *.
  specialize (IH m1). destruct (run m1 rest) as [m2 cs']. simpl in *. congruence.
Qed.

(** X13: when [insertSnippet] returns true, the session it started is registered
    for the current buffer in the state [start] left it in and the status
    item is visible, also when the session fired its cancel event during
    [start]; the buffer has received the requests of [start] and no other. *)
Theorem insertSnippet_true_registers (m : Manager S) w sn sel pos :
  (insertSnippet m w sn sel pos).1.2 = true ->
  let o := snippetTarget m w in
  let r := start (state o) sn sel pos w in
  getSession (insertSnippet m w sn sel pos).1.1.1 (w_bufnr w) = Some (withState o r.1.1)
  /\ visible (statusItem (insertSnippet m w sn sel pos).1.1.1) = true
  /\ (insertSnippet m w sn sel pos).1.1.2 = applyRequests (w_bufnr w) w (requests r.1.2).
Proof.
  rewrite insertSnippet_unfold. cbn zeta. cbn [fst snd]. intros ->.
  unfold getSession. simpl. by rewrite lookup_insert_eq.
Qed.

(** X14: [dispose()] ends the session of the current buffer only: the sessions
    of all other buffers stay registered as they are. *)
Theorem dispose_keeps_other_sessions (m : Manager S) w b :
  b <> w_bufnr w -> getSession (dispose m w).1.1 b = getSession m b.
Proof.
  intros Hne. unfold dispose, cancel.
  destruct (getSession m (w_bufnr w)) as [o|]; [|done].
  destruct (deactivate _) as [s eff]; cbn [fst snd].
  by apply afterCall_other.
Qed.

End ManagerFurther.

Section ManagerFurtherExamples.

Import Editor Manager.

#[local] Existing Instance Demo.engine.
#[local] Existing Instance Demo.resolver.

Lemma afterFirst_registryOk : registryOk afterFirst.1.1.1.
Proof. apply registryOk_insertSnippet, registryOk_initial. Qed.

Lemma step_touches_one_buffer_witness :
  getSession (step afterFirst.1.1.1 (inBuffer 2 afterFirst.1.1.2) EvCancel).1.1 1
  = getSession afterFirst.1.1.1 1.
Proof.
  apply step_touches_one_buffer.
  - apply afterFirst_registryOk.
  - discriminate.
Defined.

Lemma step_registers_only_by_insertSnippet_witness :
  exists o', getSession (step emptyManager (Demo.world [])
                           (EvInsertSnippet (chars "$1") true None)).1.1 1 = Some o'
    /\ ((exists o, getSession emptyManager 1 = Some o /\ oid o' = oid o
                   /\ objBufnr o' = objBufnr o)
        \/ (exists sn sel pos,
              EvInsertSnippet (chars "$1") true None = EvInsertSnippet sn sel pos
              /\ 1%Z = w_bufnr (Demo.world [])
              /\ getSession emptyManager 1 = None
              /\ oid o' = created emptyManager /\ objBufnr o' = 1%Z)).
Proof.
  eexists. split; [vm_compute; reflexivity|].
  apply (step_registers_only_by_insertSnippet emptyManager (Demo.world [])).
  vm_compute. reflexivity.
Defined.

Lemma close_removes_session_witness :
  let m' := onDidCloseTextDocument afterFirst.1.1.1 afterFirst.1.1.2
              (chars "file:///a.ts") in
  getSession m' 1 = None /\ statusItem m' = statusItem afterFirst.1.1.1.
Proof.
  pose proof (close_removes_session afterFirst.1.1.1 afterFirst.1.1.2
                (chars "file:///a.ts") 1 afterFirst_registryOk eq_refl) as Hc.
  exact (conj (proj1 Hc) (proj2 (proj2 Hc))).
Defined.

Lemma closed_session_never_called_witness :
  Forall (fun c => callee c <> 0)
    (run (onDidCloseTextDocument afterFirst.1.1.1 afterFirst.1.1.2 (chars "file:///a.ts"))
       [(afterFirst.1.1.2,
         EvChange {| uri := chars "file:///a.ts";
                     contentChanges := [{| rangeStart := 0; rangeEnd := 0;
                                           newText := chars "x" |}] |});
        (afterFirst.1.1.2, EvNext); (afterFirst.1.1.2, EvCancel)]).2.
Proof.
  assert (Hl : exists o, getSession afterFirst.1.1.1 1 = Some o /\ oid o = 0).
  { vm_compute. eexists; split; reflexivity. }
  destruct Hl as (o & Hl & <-).
  apply (closed_session_never_called afterFirst.1.1.1 afterFirst.1.1.2
           (chars "file:///a.ts") 1 o).
  - apply afterFirst_registryOk.
  - reflexivity.
  - exact Hl.
Defined.

Lemma navigation_without_active_session_witness :
  is_Some (getSession afterPlain.1.1.1 1)
  /\ Forall (fun out : Manager Session.Session * World * list Call =>
               sessionMap out.1.1 = sessionMap afterPlain.1.1.1
               /\ visible (statusItem out.1.1) = false
               /\ out.1.2 = disableSnippetKeys afterPlain.1.1.2
               /\ out.2 = [])
       [next afterPlain.1.1.1 afterPlain.1.1.2;
        previous afterPlain.1.1.1 afterPlain.1.1.2].
Proof.
  split; [vm_compute; eexists; reflexivity|].
  apply (navigation_without_active_session afterPlain.1.1.1 afterPlain.1.1.2).
  reflexivity.
Defined.

Lemma status_shown_only_by_witness :
  visible (statusItem emptyManager) = true
  \/ (exists sn sel pos,
        EvInsertSnippet (chars "$1") true None = EvInsertSnippet sn sel pos
        /\ (insertSnippet emptyManager (Demo.world []) sn sel pos).1.2 = true)
  \/ (exists b o, EvInsertSnippet (chars "$1") true None = EvBufEnter b
                  /\ getSession emptyManager b = Some o
                  /\ isActive (state o) = true).
Proof.
  exact (status_shown_only_by emptyManager (Demo.world [])
           (EvInsertSnippet (chars "$1") true None) eq_refl).
Defined.

Lemma insertSnippet_true_registers_witness :
  let o := snippetTarget emptyManager (Demo.world []) in
  let r := Session.start (state o) (chars "$1 and $2") true None (Demo.world []) in
  getSession afterFirst.1.1.1 1 = Some (withState o r.1.1)
  /\ visible (statusItem afterFirst.1.1.1) = true
  /\ afterFirst.1.1.2 = applyRequests 1 (Demo.world []) (requests r.1.2).
Proof.
  exact (insertSnippet_true_registers emptyManager (Demo.world []) (chars "$1 and $2")
           true None eq_refl).
Defined.

Lemma dispose_keeps_other_sessions_witness :
  getSession (dispose afterFirst.1.1.1 (inBuffer 2 afterFirst.1.1.2)).1.1 1
  = getSession afterFirst.1.1.1 1.
Proof. apply dispose_keeps_other_sessions. discriminate. Defined.

End ManagerFurtherExamples.

(** ** The manager before [workspace.ready] *)
Section UnreadyTheorems.

Import Editor Manager.

Context {S : Type} `{SnippetSession S}.

Lemma unready_session (m : Unready.Manager S) cfg w :
  Manager.session (Unready.ready m cfg) w = Unready.session m w.
Proof. done. Qed.

Lemma unready_afterCall (m : Unready.Manager S) cfg w b o s eff cs :
  let r := Manager.afterCall (Unready.ready m cfg) w b o s eff in
  match Unready.afterCall m w b o s eff cs with
  | Unready.Returned m' w' cs' _ =>
      sessionMap r.1 = Unready.sessionMap m' /\ created r.1 = Unready.created m'
      /\ r.2 = w' /\ cs = cs'
  | Unready.Rejected _ _ _ => False
  | Unready.ListenerThrew m' cs' =>
      sessionMap r.1 = Unready.sessionMap m' /\ created r.1 = Unready.created m'
      /\ cs = cs'
  end.
Proof.
  cbn zeta. unfold Unready.afterCall, Manager.afterCall, onCancel. simpl.
  destruct (cancelled eff); [|done]. simpl.
  case_bool_decide; simpl; done.
Qed.

(** X15: before [workspace.ready], apart from the status item an operation
    that returns or ends in the [TypeError] of its own use of the undefined
    status item has done to the registry, to the editor and to the sessions
    what it does once the status item exists.  When the [onCancel] listener
    throws, the calls made agree and the registry at the throw is the one
    the operation leaves after [workspace.ready], except that
    [insertSnippet] then goes on and registers the session again if [start]
    reported it active. *)
Theorem unready_agrees_with_ready (m : Unready.Manager S) cfg w ev :
  let r := Manager.step (Unready.ready m cfg) w ev in
  match Unready.step m w ev with
  | Unready.Returned m' w' cs _ | Unready.Rejected m' w' cs =>
      sessionMap r.1.1 = Unready.sessionMap m'
      /\ created r.1.1 = Unready.created m'
      /\ r.1.2 = w' /\ r.2 = cs
  | Unready.ListenerThrew m' cs =>
      r.2 = cs
      /\ created r.1.1 = Unready.created m'
      /\ sessionMap r.1.1 =
         match ev with
         | EvInsertSnippet sn sel pos =>
             let o := snippetTarget (Unready.ready m cfg) w in
             let st := start (state o) sn sel pos w in
             if st.2
             then <[w_bufnr w := withState o st.1.1]> (Unready.sessionMap m')
             else Unready.sessionMap m'
         | _ => Unready.sessionMap m'
         end
  end.
Proof.
  cbn zeta.
  assert (Hafter : forall b o s eff cs,
    match Unready.afterCall m w b o s eff cs with
    | Unready.Returned m' w' cs' _ | Unready.Rejected m' w' cs' =>
        sessionMap (Manager.afterCall (Unready.ready m cfg) w b o s eff).1
        = Unready.sessionMap m'
        /\ created (Manager.afterCall (Unready.ready m cfg) w b o s eff).1
           = Unready.created m'
        /\ (Manager.afterCall (Unready.ready m cfg) w b o s eff).2 = w' /\ cs = cs'
    | Unready.ListenerThrew m' cs' =>
        cs = cs'
        /\ created (Manager.afterCall (Unready.ready m cfg) w b o s eff).1
           = Unready.created m'
        /\ sessionMap (Manager.afterCall (Unready.ready m cfg) w b o s eff).1
           = Unready.sessionMap m'
    end).
  { intros b o s eff cs.
    pose proof (unready_afterCall m cfg w b o s eff cs) as Ha. cbn zeta in Ha.
    destruct (Unready.afterCall m w b o s eff cs); [done|done|].
    by destruct Ha as (? & ? & ?). }
  destruct ev; cbn [Manager.step Unready.step fst snd].
  - unfold Manager.onDidChangeTextDocument, Unready.onDidChangeTextDocument.
    cbn [Unready.ready]. unfold Manager.getSession, Unready.getSession. simpl.
    destruct (w_documents w (uri e)) as [b0|]; [|done].
    destruct (Unready.sessionMap m !! b0) as [o|]; [|done].
    destruct (isActive (state o)); [|done].
    destruct (synchronizeUpdatedPlaceholders _ _ _) as [s eff]. cbn [fst snd].
    apply Hafter.
  - unfold Manager.onDidCloseTextDocument, Unready.onDidCloseTextDocument.
    unfold Manager.getSession, Unready.getSession. simpl.
    destruct (w_documents w textDocument) as [b0|]; [|done].
    by destruct (Unready.sessionMap m !! b0) as [o|].
  - done.
  - unfold Manager.onInsertEnter, Unready.onInsertEnter. rewrite unready_session.
    destruct (Unready.session m w) as [o|]; [|done].
    destruct (checkPosition _ _) as [s eff]. cbn [fst snd]. apply Hafter.
  - rewrite insertSnippet_unfold. cbn zeta. cbn [fst snd].
    unfold Unready.insertSnippet, snippetTarget, Manager.getSession, Unready.getSession.
    simpl.
    destruct (Unready.sessionMap m !! w_bufnr w) as [o|]; simpl;
      destruct (start _ _ _ _ _) as [[s eff] active]; simpl;
      by destruct (cancelled eff), active.
  - unfold Manager.selectCurrent, Unready.selectCurrent. rewrite unready_session.
    destruct (Unready.session m w) as [o|]; [|done].
    destruct (selectCurrentPlaceholder _ _) as [s eff]. cbn [fst snd]. apply Hafter.
  - unfold Manager.next, Unready.next. rewrite unready_session.
    destruct (Unready.session m w) as [o|]; [|done].
    destruct (nextPlaceholder _ _) as [s eff]. cbn [fst snd]. apply Hafter.
  - unfold Manager.previous, Unready.previous. rewrite unready_session.
    destruct (Unready.session m w) as [o|]; [|done].
    destruct (previousPlaceholder _ _) as [s eff]. cbn [fst snd]. apply Hafter.
  - unfold Manager.cancel, Unready.cancel.
    unfold Manager.getSession, Unready.getSession. simpl.
    destruct (Unready.sessionMap m !! w_bufnr w) as [o|]; [|done].
    destruct (deactivate _) as [s eff]. cbn [fst snd]. apply Hafter.
Qed.

Lemma unready_afterCall_outcome (m : Unready.Manager S) w b o s eff cs :
  match Unready.afterCall m w b o s eff cs with
  | Unready.Returned _ _ _ _ => ~ (cancelled eff = true /\ w_bufnr w = b)
  | Unready.Rejected _ _ _ => False
  | Unready.ListenerThrew _ _ => cancelled eff = true /\ w_bufnr w = b
  end.
Proof.
  unfold Unready.afterCall. destruct (cancelled eff); [|by intros [? _]].
  case_bool_decide; [done|]. by intros [_ ?].
Qed.

(** X16: before [workspace.ready], where the [TypeError] of the undefined
    status item is raised.  In the manager's own method: in
    [nextPlaceholder] and [previousPlaceholder] without an active session
    in the current buffer, and in [insertSnippet] when [start] reports the
    session active without having fired its cancel event.  In the
    [onCancel] listener: whenever the session call an operation makes for
    the current buffer fires the cancel event, so in [cancel()] on a
    registered session whose [deactivate] fires it.  [BufEnter], the close
    handler and [cancel()] without a registered session never raise it. *)
Theorem type_errors_before_ready (m : Unready.Manager S) w ev :
  ((exists m' w' cs, Unready.step m w ev = Unready.Rejected m' w' cs) <->
   ((ev = EvNext \/ ev = EvPrevious) /\ Unready.session m w = None)
   \/ (exists sn sel pos,
         ev = EvInsertSnippet sn sel pos
         /\ (start (state (snippetTarget (Unready.ready m None) w)) sn sel pos w).2 = true
         /\ cancelled (start (state (snippetTarget (Unready.ready m None) w))
                         sn sel pos w).1.2 = false))
  /\ ((exists m' cs, Unready.step m w ev = Unready.ListenerThrew m' cs) <->
      exists eff, sessionCall m w ev = Some (w_bufnr w, eff) /\ cancelled eff = true).
Proof.
  assert (Hcall : forall b o s eff cs,
    ((exists m' w' cs', Unready.afterCall m w b o s eff cs
                        = Unready.Rejected m' w' cs') <-> False)
    /\ ((exists m' cs', Unready.afterCall m w b o s eff cs
                        = Unready.ListenerThrew m' cs')
        <-> cancelled eff = true /\ w_bufnr w = b)).
  { intros b o s eff cs.
    pose proof (unready_afterCall_outcome m w b o s eff cs) as Ho.
    destruct (Unready.afterCall m w b o s eff cs) as [m1 w1 cs1 r1|m1 w1 cs1|m1 cs1].
    - split; split; try done; try by intros (? & ? & ? & ?).
      + by intros (? & ? & ?).
    - done.
    - split; split; try done; try by intros (? & ? & ? & ?).
      intros _. by eexists _, _. }
  assert (Hret : forall (m0 : Unready.Manager S) w0 cs0 (P Q : Prop),
    (P -> False) -> (Q -> False) ->
    ((exists m' w' cs', Unready.Returned m0 w0 cs0 tt
                        = Unready.Rejected m' w' cs') <-> P)
    /\ ((exists m' cs', Unready.Returned m0 w0 cs0 tt
                        = Unready.ListenerThrew (R := unit) m' cs') <-> Q)).
  { intros m0 w0 cs0 P Q HP HQ.
    split; split; try done; try (by intros (? & ? & ? & ?)); by intros (? & ? & ?). }
  destruct ev; cbn [Unready.step sessionCall].
  - unfold Unready.onDidChangeTextDocument.
    destruct (w_documents w (uri e)) as [b0|];
      [|apply Hret; [intros [[[? | ?] _]|(? & ? & ? & ? & _)]; done
                    |by intros (? & ? & _)]].
    destruct (Unready.getSession m b0) as [o|];
      [|apply Hret; [intros [[[? | ?] _]|(? & ? & ? & ? & _)]; done
                    |by intros (? & ? & _)]].
    destruct (isActive (state o));
      [|apply Hret; [intros [[[? | ?] _]|(? & ? & ? & ? & _)]; done
                    |by intros (? & ? & _)]].
    destruct (synchronizeUpdatedPlaceholders _ _ _) as [s eff]. cbn [fst snd].
    destruct (Hcall b0 o s eff [CallSynchronize (oid o) (head (contentChanges e))])
      as [Hr Hl].
    split.
    + rewrite Hr. split; [done|].
      intros [[[? | ?] _]|(? & ? & ? & ? & _)]; done.
    + rewrite Hl. split.
      * intros [Hc <-]. by exists eff.
      * intros (eff' & [= -> ->] & Hc). done.
  - unfold Unready.onDidCloseTextDocument.
    destruct (w_documents w textDocument) as [b0|];
      [|apply Hret; [intros [[[? | ?] _]|(? & ? & ? & ? & _)]; done
                    |by intros (? & ? & _)]].
    destruct (Unready.getSession m b0) as [o|];
      apply Hret; try (by intros (? & ? & _));
      intros [[[? | ?] _]|(? & ? & ? & ? & _)]; done.
  - apply Hret; [intros [[[? | ?] _]|(? & ? & ? & ? & _)]; done
                |by intros (? & ? & _)].
  - unfold Unready.onInsertEnter.
    destruct (Unready.session m w) as [o|];
      [|apply Hret; [intros [[[? | ?] _]|(? & ? & ? & ? & _)]; done
                    |by intros (? & ? & _)]].
    destruct (checkPosition _ _) as [s eff]. cbn [fst snd].
    destruct (Hcall (w_bufnr w) o s eff [CallCheckPosition (oid o)]) as [Hr Hl].
    split.
    + rewrite Hr. split; [done|].
      intros [[[? | ?] _]|(? & ? & ? & ? & _)]; done.
    + rewrite Hl. split.
      * intros [Hc _]. by exists eff.
      * intros (eff' & [= ->] & Hc). done.
  - set (r := start (state (snippetTarget (Unready.ready m None) w))
                snippet select position w).
    assert (HA : ((EvInsertSnippet snippet select position = EvNext
                   \/ EvInsertSnippet snippet select position = EvPrevious)
                  /\ Unready.session m w = None)
                 \/ (exists sn sel pos,
                       EvInsertSnippet snippet select position = EvInsertSnippet sn sel pos
                       /\ (start (state (snippetTarget (Unready.ready m None) w))
                             sn sel pos w).2 = true
                       /\ cancelled (start (state (snippetTarget (Unready.ready m None) w))
                                       sn sel pos w).1.2 = false)
                 <-> r.2 = true /\ cancelled r.1.2 = false).
    { split.
      - intros [[[? | ?] _]|(sn & sel & pos & [= <- <- <-] & ? & ?)]; done.
      - intros [? ?]. right. by exists snippet, select, position. }
    assert (HB : (exists eff, Some (w_bufnr w, r.1.2) = Some (w_bufnr w, eff)
                              /\ cancelled eff = true)
                 <-> cancelled r.1.2 = true).
    { split; [by intros (eff & [= <-] & ?)|intros ?; by eexists]. }
    rewrite HA. fold r. rewrite HB. clear HA HB. revert r.
    unfold Unready.insertSnippet, snippetTarget, Manager.getSession, Unready.getSession.
    simpl.
    destruct (Unready.sessionMap m !! w_bufnr w) as [o|]; simpl;
      destruct (start _ _ _ _ _) as [[s eff] active]; simpl;
      destruct (cancelled eff), active; simpl;
      (split; split;
       try (by intros (? & ? & ? & ?)); try (by intros (? & ? & ?));
       try (by intros [? ?]); try done;
       intros _; by (eexists _, _, _ || eexists _, _)).
  - unfold Unready.selectCurrent.
    destruct (Unready.session m w) as [o|];
      [|apply Hret; [intros [[[? | ?] _]|(? & ? & ? & ? & _)]; done
                    |by intros (? & ? & _)]].
    destruct (selectCurrentPlaceholder _ _) as [s eff]. cbn [fst snd].
    destruct (Hcall (w_bufnr w) o s eff [CallSelect (oid o)]) as [Hr Hl].
    split.
    + rewrite Hr. split; [done|].
      intros [[[? | ?] _]|(? & ? & ? & ? & _)]; done.
    + rewrite Hl. split.
      * intros [Hc _]. by exists eff.
      * intros (eff' & [= ->] & Hc). done.
  - unfold Unready.next.
    destruct (Unready.session m w) as [o|] eqn:Hs.
    + destruct (nextPlaceholder _ _) as [s eff]. cbn [fst snd].
      destruct (Hcall (w_bufnr w) o s eff [CallNext (oid o)]) as [Hr Hl].
      split.
      * rewrite Hr. split; [done|].
        intros [[_ ?]|(? & ? & ? & ? & _)]; done.
      * rewrite Hl. split.
        -- intros [Hc _]. by exists eff.
        -- intros (eff' & [= ->] & Hc). done.
    + split; split.
      * intros _. left. split; [by left|done].
      * intros _. by eexists _, _, _.
      * by intros (? & ? & ?).
      * by intros (? & ? & _).
  - unfold Unready.previous.
    destruct (Unready.session m w) as [o|] eqn:Hs.
    + destruct (previousPlaceholder _ _) as [s eff]. cbn [fst snd].
      destruct (Hcall (w_bufnr w) o s eff [CallPrevious (oid o)]) as [Hr Hl].
      split.
      * rewrite Hr. split; [done|].
        intros [[_ ?]|(? & ? & ? & ? & _)]; done.
      * rewrite Hl. split.
        -- intros [Hc _]. by exists eff.
        -- intros (eff' & [= ->] & Hc). done.
    + split; split.
      * intros _. left. split; [by right|done].
      * intros _. by eexists _, _, _.
      * by intros (? & ? & ?).
      * by intros (? & ? & _).
  - unfold Unready.cancel.
    destruct (Unready.getSession m (w_bufnr w)) as [o|];
      [|apply Hret; [intros [[[? | ?] _]|(? & ? & ? & ? & _)]; done
                    |by intros (? & ? & _)]].
    destruct (deactivate _) as [s eff]. cbn [fst snd].
    destruct (Hcall (w_bufnr w) o s eff [CallDeactivate (oid o)]) as [Hr Hl].
    split.
    + rewrite Hr. split; [done|].
      intros [[[? | ?] _]|(? & ? & ? & ? & _)]; done.
    + rewrite Hl. split.
      * intros [Hc _]. by exists eff.
      * intros (eff' & [= ->] & Hc). done.
Qed.

Lemma registryOk_ext (m1 m2 : Manager S) :
  sessionMap m1 = sessionMap m2 -> created m1 = created m2 ->
  registryOk m1 -> registryOk m2.
Proof. unfold registryOk. by intros -> ->. Qed.

Lemma unready_afterCall_ok (m : Unready.Manager S) cfg w b o s eff cs :
  registryOk (Unready.ready m cfg) -> Unready.sessionMap m !! b = Some o ->
  match Unready.afterCall m w b o s eff cs with
  | Unready.Returned m' _ _ _ | Unready.Rejected m' _ _ | Unready.ListenerThrew m' _ =>
      registryOk (Unready.ready m' cfg)
  end.
Proof.
  intros Hok Hl.
  pose proof (registryOk_update (Unready.ready m cfg) b o s Hok Hl) as Hu.
  unfold Unready.afterCall.
  destruct (cancelled eff); [|exact Hu].
  assert (Hd : registryOk (Unready.ready
            {| Unready.sessionMap := delete b (<[b := withState o s]> (Unready.sessionMap m));
               Unready.created := Unready.created m |} cfg)).
  { eapply registryOk_delete, Hu. }
  by case_bool_decide.
Qed.

(** X17: the registry built before [workspace.ready] is as well formed as the
    one built after it: an operation keeps every session registered for
    its own buffer and for one buffer only, also when it ends in a
    [TypeError]. *)
Theorem registry_ok_before_ready (m : Unready.Manager S) cfg w ev :
  registryOk (Unready.ready m cfg) ->
  match Unready.step m w ev with
  | Unready.Returned m' _ _ _ | Unready.Rejected m' _ _ | Unready.ListenerThrew m' _ =>
      registryOk (Unready.ready m' cfg)
  end.
Proof.
  intros Hok.
  destruct ev; cbn [Unready.step].
  - unfold Unready.onDidChangeTextDocument, Unready.getSession.
    destruct (w_documents w (uri e)) as [b0|]; [|done].
    destruct (Unready.sessionMap m !! b0) as [o|] eqn:Hl; [|done].
    destruct (isActive (state o)); [|done].
    destruct (synchronizeUpdatedPlaceholders _ _ _) as [s eff].
    by apply unready_afterCall_ok.
  - unfold Unready.onDidCloseTextDocument, Unready.getSession.
    destruct (w_documents w textDocument) as [b0|]; [|done].
    destruct (Unready.sessionMap m !! b0) as [o|]; [|done].
    eapply registryOk_delete, Hok.
  - done.
  - unfold Unready.onInsertEnter, Unready.session, Unready.getSession.
    destruct (Unready.sessionMap m !! w_bufnr w) as [o|] eqn:Hl; [|done].
    destruct (isActive (state o)); [|done].
    destruct (checkPosition _ _) as [s eff].
    by apply unready_afterCall_ok.
  - pose proof (registryOk_insertSnippet (Unready.ready m cfg) w snippet select position Hok)
      as Hi.
    rewrite insertSnippet_unfold in Hi. cbn zeta in Hi. cbn [fst snd] in Hi.
    revert Hi.
    unfold Unready.insertSnippet, snippetTarget, Manager.getSession, Unready.getSession.
    simpl.
    destruct (Unready.sessionMap m !! w_bufnr w) as [o|] eqn:Hl; simpl;
      destruct (start _ _ _ _ _) as [[s eff] active]; simpl;
      destruct (cancelled eff) eqn:Hc, active; simpl; intros Hi; try exact Hi.
    + eapply registryOk_delete, (registryOk_update (Unready.ready m cfg) _ o s Hok Hl).
    + eapply registryOk_delete, registryOk_more, Hok.
  - unfold Unready.selectCurrent, Unready.session, Unready.getSession.
    destruct (Unready.sessionMap m !! w_bufnr w) as [o|] eqn:Hl; [|done].
    destruct (isActive (state o)); [|done].
    destruct (selectCurrentPlaceholder _ _) as [s eff].
    by apply unready_afterCall_ok.
  - unfold Unready.next, Unready.session, Unready.getSession.
    destruct (Unready.sessionMap m !! w_bufnr w) as [o|] eqn:Hl; [|done].
    destruct (isActive (state o)); [|done].
    destruct (nextPlaceholder _ _) as [s eff].
    by apply unready_afterCall_ok.
  - unfold Unready.previous, Unready.session, Unready.getSession.
    destruct (Unready.sessionMap m !! w_bufnr w) as [o|] eqn:Hl; [|done].
    destruct (isActive (state o)); [|done].
    destruct (previousPlaceholder _ _) as [s eff].
    by apply unready_afterCall_ok.
  - unfold Unready.cancel, Unready.getSession.
    destruct (Unready.sessionMap m !! w_bufnr w) as [o|] eqn:Hl; [|done].
    destruct (deactivate _) as [s eff].
    by apply unready_afterCall_ok.
Qed.

End UnreadyTheorems.

Section UnreadyExamples.

Import Editor Manager.

#[local] Existing Instance Demo.engine.
#[local] Existing Instance Demo.resolver.

Lemma registry_ok_before_ready_witness :
  match Unready.step (Unready.initial (S := Session.Session)) (Demo.world [])
          (EvInsertSnippet (chars "$1 and $2") true None) with
  | Unready.Returned m' _ _ _ | Unready.Rejected m' _ _ | Unready.ListenerThrew m' _ =>
      registryOk (Unready.ready m' None)
  end.
Proof.
  apply (registry_ok_before_ready Unready.initial None).
  apply (registryOk_initial (chars "SNIP")).
Defined.

(** Before [workspace.ready], inserting a snippet with tabstops registers
    its session and then fails on the status item. *)
Example insertSnippet_before_ready :
  exists m' w' cs,
    Unready.insertSnippet (Unready.initial (S := Session.Session)) (Demo.world [])
      (chars "$1 and $2") true None = Unready.Rejected m' w' cs
    /\ is_Some (Unready.getSession m' 1)
    /\ bufferText w' 1 = chars " and ".
Proof. vm_compute. eexists _, _, _. split; [reflexivity|]. split; [by eexists|done]. Qed.

End UnreadyExamples.
